(** * node-orm-demo: the association layer of the publishing API

    A shallow embedding of the Express controllers of the repository
    (controllers/userController.js, profileController.js,
    postController.js, tagController.js, postTagController.js) together
    with the model definitions they rest on (models/user.js, profile.js,
    post.js, tag.js, postTag.js and the associations of models/index.js).

    The controllers are written against Sequelize and PostgreSQL.  The
    storage is embedded as explicit tables (lists of rows in insertion
    order), the ORM calls as functions over these tables, and every
    controller as a function from the request and the world to the new
    world and the HTTP response. *)

From Stdlib Require Import List String Ascii Bool Arith ZArith Lia Permutation.
From Stdlib Require Import Sorting.Sorted.
Import ListNotations.

(** ** Values received from the HTTP layer *)

(** A property of [req.body] whose JSON value is a string, [null], or
    which is missing from the body altogether. *)
Inductive field : Type :=
| Undefined
| Null
| Str (s : string).

(** JavaScript truthiness of such a value: [undefined], [null] and the
    empty string are falsy. *)
Definition truthy (f : field) : bool :=
  match f with
  | Str s => negb (String.eqb s EmptyString)
  | _ => false
  end.

(** What reaches a nullable column when the value is written. *)
Definition column (f : field) : option string :=
  match f with
  | Str s => Some s
  | _ => None
  end.

(** ** Rows of the five tables *)

(** [DataTypes.ENUM('active', 'draft', 'archived')] of models/post.js. *)
Inductive Status : Type := active | draft | archived.

Definition Status_eqb (a b : Status) : bool :=
  match a, b with
  | active, active | draft, draft | archived, archived => true
  | _, _ => false
  end.

Definition status_of_string (s : string) : option Status :=
  if String.eqb s "active" then Some active
  else if String.eqb s "draft" then Some draft
  else if String.eqb s "archived" then Some archived
  else None.

Definition string_of_status (s : Status) : string :=
  match s with
  | active => "active"
  | draft => "draft"
  | archived => "archived"
  end.

(** Every table carries the [createdAt] and [updatedAt] columns Sequelize
    adds; times are abstract instants. *)
Record UserRow : Type := mkUser {
  u_id : nat;
  firstName : string;
  lastName : string;
  email : string;
  u_createdAt : nat;
  u_updatedAt : nat
}.

Record ProfileRow : Type := mkProfile {
  pr_id : nat;
  bio : option string;
  pr_userId : nat;
  pr_createdAt : nat;
  pr_updatedAt : nat
}.

(** [title] and [content] are kept as the values handed to the storage:
    the [allowNull: false] of the model is a validation of the ORM layer
    ([Post.validate] below), not a property of the row type.  [status] has
    no [allowNull: false] and may be [NULL]. *)
Record PostRow : Type := mkPost {
  p_id : nat;
  title : option string;
  content : option string;
  userId : nat;
  status : option Status;
  createdAt : nat;
  updatedAt : nat
}.

Record TagRow : Type := mkTag {
  t_id : nat;
  name : string;
  t_createdAt : nat;
  t_updatedAt : nat
}.

(** The join table.  [belongsToMany ... through: PostTag] drops the
    generated [id] of the through model and makes the pair
    ([postId], [tagId]) its primary key. *)
Record PostTagRow : Type := mkPostTag {
  postId : nat;
  tagId : nat;
  pt_createdAt : nat;
  pt_updatedAt : nat
}.

Record Tables : Type := mkTables {
  users : list UserRow;
  profiles : list ProfileRow;
  posts : list PostRow;
  tags : list TagRow;
  postTags : list PostTagRow
}.

(** The serial sequences behind the [id] columns.  A value drawn from a
    sequence is never given back, whether the statement fails or the
    transaction is rolled back. *)
Record Sequences : Type := mkSequences {
  users_id_seq : nat;
  profiles_id_seq : nat;
  posts_id_seq : nat;
  tags_id_seq : nat
}.

(** The world a request runs in: the committed tables, the sequences and
    what has been written with [console.log]. *)
Record World : Type := mkWorld {
  db : Tables;
  seqs : Sequences;
  console : list string
}.

(** The state after [sequelize.sync({ force: true })] (utils/sync.js). *)
Definition empty_tables : Tables := mkTables [] [] [] [] [].
Definition initial : World := mkWorld empty_tables (mkSequences 1 1 1 1) [].

Definition set_users (l : list UserRow) (t : Tables) : Tables :=
  mkTables l (profiles t) (posts t) (tags t) (postTags t).
Definition set_profiles (l : list ProfileRow) (t : Tables) : Tables :=
  mkTables (users t) l (posts t) (tags t) (postTags t).
Definition set_posts (l : list PostRow) (t : Tables) : Tables :=
  mkTables (users t) (profiles t) l (tags t) (postTags t).
Definition set_tags (l : list TagRow) (t : Tables) : Tables :=
  mkTables (users t) (profiles t) (posts t) l (postTags t).
Definition set_postTags (l : list PostTagRow) (t : Tables) : Tables :=
  mkTables (users t) (profiles t) (posts t) (tags t) l.

(** ** Errors and responses *)

Inductive Violation : Type :=
| NotNull (attr : string)      (* notNull Violation: <attr> cannot be null *)
| IsEmail (attr : string).     (* Validation isEmail on <attr> failed *)

(** The exceptions the controllers can catch.  [UniqueConstraintError] is
    Sequelize's subclass of [ValidationError]. *)
Inductive Error : Type :=
| ValidationError (items : list Violation)
| UniqueConstraintError (attr : string)
| DatabaseError (msg : string)
| ScopeError (scopeName : string)
| JsError (msg : string).

Definition is_ValidationError (e : Error) : bool :=
  match e with
  | ValidationError _ | UniqueConstraintError _ => true
  | _ => false
  end.

Inductive result (A : Type) : Type :=
| Ok (a : A)
| Err (e : Error).
Arguments Ok {A} a.
Arguments Err {A} e.

(** A post with the associations loaded by [include: [User, Tag]]. *)
Record PostView : Type := mkView {
  pv_post : PostRow;
  pv_User : option UserRow;
  pv_Tags : list TagRow
}.

(** The JSON document of a response; [JError e] stands for
    [{ error: e.message }], [JMessage m] for [{ message: m }]. *)
Inductive Json : Type :=
| JUser (u : UserRow)
| JProfile (p : ProfileRow)
| JPost (p : PostRow)
| JTag (t : TagRow)
| JPostFull (v : PostView)
| JPage (rows : list PostView) (totalPages : option Z) (currentPage : Z)
| JMessage (m : string)
| JError (e : Error)
| JNull      (* the document [null] *)
| JNone.     (* no body: [res.status(204).send()] *)

Record Response : Type := mkResponse {
  code : nat;
  json : Json
}.

(** ** Computations over the world *)

(** An awaited call: it may change the world and either returns or
    throws. *)
Definition M (A : Type) : Type := World -> World * result A.

Definition ret {A} (a : A) : M A := fun w => (w, Ok a).
Definition throw {A} (e : Error) : M A := fun w => (w, Err e).
Definition bind {A B} (m : M A) (k : A -> M B) : M B :=
  fun w =>
    match m w with
    | (w', Ok a) => k a w'
    | (w', Err e) => (w', Err e)
    end.

Notation "x <- m ;; k" := (bind m (fun x => k))
  (at level 61, m at next level, right associativity).
Notation "m ;;; k" := (bind m (fun _ => k))
  (at level 61, right associativity).

Definition get_db : M Tables := fun w => (w, Ok (db w)).
Definition put_db (t : Tables) : M unit :=
  fun w => (mkWorld t (seqs w) (console w), Ok tt).
Definition console_log (line : string) : M unit :=
  fun w => (mkWorld (db w) (seqs w) (console w ++ [line]), Ok tt).

Definition nextval_users : M nat := fun w =>
  let s := seqs w in
  (mkWorld (db w)
     (mkSequences (S (users_id_seq s)) (profiles_id_seq s) (posts_id_seq s) (tags_id_seq s))
     (console w), Ok (users_id_seq s)).
Definition nextval_profiles : M nat := fun w =>
  let s := seqs w in
  (mkWorld (db w)
     (mkSequences (users_id_seq s) (S (profiles_id_seq s)) (posts_id_seq s) (tags_id_seq s))
     (console w), Ok (profiles_id_seq s)).
Definition nextval_posts : M nat := fun w =>
  let s := seqs w in
  (mkWorld (db w)
     (mkSequences (users_id_seq s) (profiles_id_seq s) (S (posts_id_seq s)) (tags_id_seq s))
     (console w), Ok (posts_id_seq s)).
Definition nextval_tags : M nat := fun w =>
  let s := seqs w in
  (mkWorld (db w)
     (mkSequences (users_id_seq s) (profiles_id_seq s) (posts_id_seq s) (S (tags_id_seq s)))
     (console w), Ok (tags_id_seq s)).

(** [try { ... } catch (error) { ... }] around the body of a controller:
    whatever the body changed in the world before throwing stays. *)
Definition try_catch (body : M Response) (handler : Error -> World -> World * Response)
  : World -> World * Response :=
  fun w =>
    match body w with
    | (w', Ok r) => (w', r)
    | (w', Err e) => handler e w'
    end.

(** [res.status(c).json(j)] *)
Definition respond (c : nat) (j : Json) : World -> World * Response :=
  fun w => (w, mkResponse c j).

Definition lift {A} (r : result A) : M A := fun w => (w, r).

(** ** Storage failures

    The calls of [createPost] that reach the storage, in program order.
    A run is given at most one of them as the call on which the storage
    fails; [None] is a run without failure.  [sequelize.transaction()],
    [commit] and [rollback] themselves are taken to succeed. *)
Inductive step : Type :=
| AtUserLookup              (* User.findByPk(userId) *)
| AtPostInsert              (* the INSERT of Post.create *)
| AtHookLookup              (* User.findByPk inside the afterCreate hook *)
| AtFindOrCreate (i : nat)  (* Tag.findOrCreate for tags[i] *)
| AtAddTags.                (* post.addTags *)

Definition step_eqb (a b : step) : bool :=
  match a, b with
  | AtUserLookup, AtUserLookup => true
  | AtPostInsert, AtPostInsert => true
  | AtHookLookup, AtHookLookup => true
  | AtFindOrCreate i, AtFindOrCreate j => i =? j
  | AtAddTags, AtAddTags => true
  | _, _ => false
  end.

Definition fails (flt : option step) (s : step) : bool :=
  match flt with
  | Some s' => step_eqb s' s
  | None => false
  end.

Definition storage_failure : Error := DatabaseError "storage failure".

Definition query {A} (failing : bool) (m : M A) : M A :=
  if failing then throw storage_failure else m.

(** ** Validation shared by the models *)

(** [allowNull: false] on creation: [undefined] and [null] are refused,
    every string is accepted, the empty one included. *)
Definition required (attr : string) (v : option string) : list Violation :=
  match v with
  | Some _ => []
  | None => [NotNull attr]
  end.

(** [allowNull: false] on [Model.update]: a property that is [undefined]
    is left out of the UPDATE, [null] is refused. *)
Definition not_nulled (attr : string) (f : field) : list Violation :=
  match f with
  | Null => [NotNull attr]
  | _ => []
  end.

Definition patch (f : field) (old : string) : string :=
  match f with
  | Str s => s
  | _ => old
  end.

Definition patch_nullable (f : field) (old : option string) : option string :=
  match f with
  | Undefined => old
  | Null => None
  | Str s => Some s
  end.

(** ** models/user.js *)
Module User.

Definition findByPk (k : option nat) : M (option UserRow) :=
  fun w =>
    (w, Ok match k with
           | Some i => find (fun u => u_id u =? i) (users (db w))
           | None => None
           end).

Definition validate (isEmail : string -> bool) (fn ln em : field)
  : list Violation :=
  required "User.firstName" (column fn) ++
  required "User.lastName" (column ln) ++
  required "User.email" (column em) ++
  match em with
  | Str s => if isEmail s then [] else [IsEmail "email"]
  | _ => []
  end.

(** hooks.afterCreate *)
Definition afterCreate (u : UserRow) : M unit :=
  console_log ("New user registered: " ++ firstName u ++ " " ++ lastName u
               ++ " (Email: " ++ email u ++ ")").

(** [User.create({ firstName, lastName, email })]: validation, then the
    INSERT, on which the unique index on [email] is checked, then the
    hook. *)
Definition create (isEmail : string -> bool) (now : nat) (fn ln em : field)
  : M UserRow :=
  match validate isEmail fn ln em, fn, ln, em with
  | [], Str a, Str b, Str c =>
      i <- nextval_users ;;
      t <- get_db ;;
      if existsb (fun u => String.eqb (email u) c) (users t)
      then throw (UniqueConstraintError "email")
      else
        let u := mkUser i a b c now now in
        put_db (set_users (users t ++ [u]) t) ;;;
        afterCreate u ;;;
        ret u
  | vs, _, _, _ => throw (ValidationError vs)
  end.

Definition validate_update (isEmail : string -> bool) (fn ln em : field)
  : list Violation :=
  not_nulled "User.firstName" fn ++
  not_nulled "User.lastName" ln ++
  not_nulled "User.email" em ++
  match em with
  | Str s => if isEmail s then [] else [IsEmail "email"]
  | _ => []
  end.

(** [User.update({ firstName, lastName, email }, { where: { id } })];
    returns the number of rows affected. *)
Definition update (isEmail : string -> bool) (now : nat) (fn ln em : field)
  (k : nat) : M nat :=
  match validate_update isEmail fn ln em with
  | [] =>
      t <- get_db ;;
      let hit := fun u => u_id u =? k in
      let clash :=
        match em with
        | Str s =>
            existsb hit (users t) &&
            existsb (fun u => negb (hit u) && String.eqb (email u) s) (users t)
        | _ => false
        end in
      if clash then throw (UniqueConstraintError "email")
      else
        put_db (set_users
                  (map (fun u =>
                          if hit u
                          then mkUser (u_id u) (patch fn (firstName u))
                                 (patch ln (lastName u)) (patch em (email u))
                                 (u_createdAt u) now
                          else u) (users t)) t) ;;;
        ret (List.length (filter hit (users t)))
  | vs => throw (ValidationError vs)
  end.

(** [User.destroy({ where: { id } })].  The foreign keys that
    [hasOne]/[hasMany] put on the non-nullable [userId] columns are
    ON DELETE CASCADE, and so are the two keys of the join table. *)
Definition destroy (k : nat) : M nat :=
  t <- get_db ;;
  let gone := filter (fun u => u_id u =? k) (users t) in
  let owned := fun uid => existsb (fun u => u_id u =? uid) gone in
  let gone_posts := filter (fun p => owned (userId p)) (posts t) in
  put_db (mkTables
            (filter (fun u => negb (u_id u =? k)) (users t))
            (filter (fun p => negb (owned (pr_userId p))) (profiles t))
            (filter (fun p => negb (owned (userId p))) (posts t))
            (tags t)
            (filter (fun r => negb (existsb (fun p => p_id p =? postId r) gone_posts))
               (postTags t))) ;;;
  ret (List.length gone).

End User.

(** ** models/profile.js *)
Module Profile.

Definition findOne (uid : nat) : M (option ProfileRow) :=
  fun w => (w, Ok (find (fun p => pr_userId p =? uid) (profiles (db w)))).

(** [Profile.create({ bio, userId })]; [bio] is nullable. *)
Definition create (now : nat) (b : field) (uid : nat) : M ProfileRow :=
  i <- nextval_profiles ;;
  t <- get_db ;;
  let p := mkProfile i (column b) uid now now in
  put_db (set_profiles (profiles t ++ [p]) t) ;;;
  ret p.

(** [Profile.update({ bio }, { where: { userId } })] *)
Definition update (now : nat) (b : field) (uid : nat) : M nat :=
  t <- get_db ;;
  let hit := fun p => pr_userId p =? uid in
  put_db (set_profiles
            (map (fun p =>
                    if hit p
                    then mkProfile (pr_id p) (patch_nullable b (bio p))
                           (pr_userId p) (pr_createdAt p) now
                    else p) (profiles t)) t) ;;;
  ret (List.length (filter hit (profiles t))).

Definition destroy (uid : nat) : M nat :=
  t <- get_db ;;
  let hit := fun p => pr_userId p =? uid in
  put_db (set_profiles (filter (fun p => negb (hit p)) (profiles t)) t) ;;;
  ret (List.length (filter hit (profiles t))).

End Profile.

(** ** models/tag.js *)
Module Tag.

Definition findByPk (k : option nat) : M (option TagRow) :=
  fun w =>
    (w, Ok match k with
           | Some i => find (fun g => t_id g =? i) (tags (db w))
           | None => None
           end).

(** [Tag.create({ name })] *)
Definition create (now : nat) (n : field) : M TagRow :=
  match n with
  | Str s =>
      i <- nextval_tags ;;
      t <- get_db ;;
      let g := mkTag i s now now in
      put_db (set_tags (tags t ++ [g]) t) ;;;
      ret g
  | _ => throw (ValidationError (required "Tag.name" (column n)))
  end.

(** [Tag.update({ name }, { where: { id } })] *)
Definition update (now : nat) (n : field) (k : nat) : M nat :=
  match not_nulled "Tag.name" n with
  | [] =>
      t <- get_db ;;
      let hit := fun g => t_id g =? k in
      put_db (set_tags
                (map (fun g =>
                        if hit g
                        then mkTag (t_id g) (patch n (name g)) (t_createdAt g) now
                        else g) (tags t)) t) ;;;
      ret (List.length (filter hit (tags t)))
  | vs => throw (ValidationError vs)
  end.

(** [Tag.destroy({ where: { id } })], cascading to the join table. *)
Definition destroy (k : nat) : M nat :=
  t <- get_db ;;
  let hit := fun g => t_id g =? k in
  let gone := filter hit (tags t) in
  put_db (set_postTags
            (filter (fun r => negb (existsb (fun g => t_id g =? tagId r) gone))
               (postTags t))
            (set_tags (filter (fun g => negb (hit g)) (tags t)) t)) ;;;
  ret (List.length gone).

(** [Tag.findOrCreate({ where: { name } })], called without a
    [transaction] option: Sequelize opens a transaction of its own for
    the call and commits it before returning, so a row it creates is in
    the committed tables at once.  An element of [tags] that is [null]
    matches no row ([name IS NULL]) and the creation is then refused by
    [allowNull: false].  The result is the pair [instance, created]. *)
Definition findOrCreate (now : nat) (failing : bool) (n : option string)
  : M (TagRow * bool) :=
  query failing
    (t <- get_db ;;
     match n with
     | Some s =>
         match find (fun g => String.eqb (name g) s) (tags t) with
         | Some g => ret (g, false)
         | None => g <- create now (Str s) ;; ret (g, true)
         end
     | None => g <- create now Null ;; ret (g, true)
     end).

End Tag.

(** ** Transactions

    [const transaction = await sequelize.transaction()].  The writes made
    with [{ transaction }] stay pending in the transaction until it is
    committed; a call made without the option works on the committed
    tables directly. *)
Record Txn : Type := mkTxn {
  tx_posts : list PostRow;
  tx_postTags : list PostTagRow
}.

Definition sequelize_transaction : Txn := mkTxn [] [].

(** [transaction.commit()]: the pending rows join the committed tables. *)
Definition commit (tx : Txn) : M unit :=
  t <- get_db ;;
  put_db (set_postTags (postTags t ++ tx_postTags tx)
            (set_posts (posts t ++ tx_posts tx) t)).

(** [transaction.rollback()]: the pending rows are dropped; nothing that
    was written outside the transaction is touched. *)
Definition rollback : M unit := ret tt.

(** ** The Post-Tag association (models/index.js, models/postTag.js) *)

Definition same_pair (a b : PostTagRow) : bool :=
  (postId a =? postId b) && (tagId a =? tagId b).

Definition linked (rows : list PostTagRow) (pid tid : nat) : bool :=
  existsb (fun r => (postId r =? pid) && (tagId r =? tid)) rows.

(** The rows [post.addTags(instances)] sends to [bulkCreate]: one for every
    instance that has no join row with the post among the rows it can
    see. *)
Definition through_rows (now : nat) (visible : list PostTagRow) (pid : nat)
  (instances : list TagRow) : list PostTagRow :=
  map (fun g => mkPostTag pid (t_id g) now now)
    (filter (fun g => negb (linked visible pid (t_id g))) instances).

Fixpoint has_duplicate (rows : list PostTagRow) : bool :=
  match rows with
  | [] => false
  | r :: rest => existsb (same_pair r) rest || has_duplicate rest
  end.

(** The primary key ([postId], [tagId]) refuses an INSERT that repeats a
    pair. *)
Definition pk_violation (visible bulk : list PostTagRow) : bool :=
  existsb (fun r => existsb (same_pair r) visible) bulk || has_duplicate bulk.

(** The tags reached from a post through the join table. *)
Definition tags_of (t : Tables) (p : PostRow) : list TagRow :=
  flat_map (fun r =>
              if postId r =? p_id p
              then filter (fun g => t_id g =? tagId r) (tags t)
              else [])
    (postTags t).

Definition users_of (t : Tables) (p : PostRow) : list UserRow :=
  filter (fun u => u_id u =? userId p) (users t).

(** [include: [User, Tag]] *)
Definition view (t : Tables) (p : PostRow) : PostView :=
  mkView p (hd_error (users_of t p)) (tags_of t p).

(** The double quote of the log line of the hook. *)
Definition dquote : string := String (ascii_of_nat 34) EmptyString.

(** ** models/post.js *)
Module Post.

Definition findByPk (k : nat) : M (option PostRow) :=
  fun w => (w, Ok (find (fun p => p_id p =? k) (posts (db w)))).

(** [Post.findByPk(id, { include: [User, Tag] })] *)
Definition findByPk_include (k : nat) : M (option PostView) :=
  fun w =>
    (w, Ok (option_map (view (db w)) (find (fun p => p_id p =? k) (posts (db w))))).

Definition validate (ti co : option string) : list Violation :=
  required "Post.title" ti ++ required "Post.content" co.

(** hooks.afterCreate: the lookup is awaited inside [Post.create], so
    that a rejection of it rejects the creation. *)
Definition afterCreate (flt : option step) (post : PostRow) : M unit :=
  user <- query (fails flt AtHookLookup) (User.findByPk (Some (userId post))) ;;
  match user with
  | Some u =>
      console_log
        ("New post created by " ++ firstName u ++ " " ++ lastName u
         ++ ": Title - " ++ dquote
         ++ match title post with Some s => s | None => "null" end
         ++ dquote ++ ", Status - "
         ++ match status post with
            | Some s => string_of_status s
            | None => "null"
            end)
  | None => ret tt
  end.

(** [Post.create({ title, content, userId, status }, { transaction })]:
    validation, the INSERT inside the transaction (where the enum of
    [status] is checked), then the hook. *)
Definition create (now : nat) (flt : option step) (ti co : field) (uid : nat)
  (st : string) (tx : Txn) : M (Txn * PostRow) :=
  match validate (column ti) (column co) with
  | [] =>
      match status_of_string st with
      | Some s =>
          query (fails flt AtPostInsert)
            (i <- nextval_posts ;;
             let post := mkPost i (column ti) (column co) uid (Some s) now now in
             afterCreate flt post ;;;
             ret (mkTxn (tx_posts tx ++ [post]) (tx_postTags tx), post))
      | None => throw (DatabaseError "invalid input value for enum")
      end
  | vs => throw (ValidationError vs)
  end.

(** What an UPDATE does to [status]. *)
Definition patch_status (f : field) : result (option Status -> option Status) :=
  match f with
  | Undefined => Ok (fun old => old)
  | Null => Ok (fun _ => None)
  | Str s =>
      match status_of_string s with
      | Some x => Ok (fun _ => Some x)
      | None => Err (DatabaseError "invalid input value for enum")
      end
  end.

(** [Post.update({ title, content, status }, { where: { id } })] *)
Definition update (now : nat) (ti co st : field) (k : nat) : M nat :=
  match not_nulled "Post.title" ti ++ not_nulled "Post.content" co with
  | [] =>
      set_status <- lift (patch_status st) ;;
      t <- get_db ;;
      let hit := fun p => p_id p =? k in
      put_db (set_posts
                (map (fun p =>
                        if hit p
                        then mkPost (p_id p) (patch_nullable ti (title p))
                               (patch_nullable co (content p)) (userId p)
                               (set_status (status p)) (createdAt p) now
                        else p) (posts t)) t) ;;;
      ret (List.length (filter hit (posts t)))
  | vs => throw (ValidationError vs)
  end.

(** [Post.destroy({ where: { id } })], cascading to the join table. *)
Definition destroy (k : nat) : M nat :=
  t <- get_db ;;
  let hit := fun p => p_id p =? k in
  let gone := filter hit (posts t) in
  put_db (set_postTags
            (filter (fun r => negb (existsb (fun p => p_id p =? postId r) gone))
               (postTags t))
            (set_posts (filter (fun p => negb (hit p)) (posts t)) t)) ;;;
  ret (List.length gone).

(** [post.addTags(instances, { transaction })] *)
Definition addTags (now : nat) (flt : option step) (post : PostRow)
  (instances : list TagRow) (tx : Txn) : M Txn :=
  query (fails flt AtAddTags)
    (t <- get_db ;;
     let visible := postTags t ++ tx_postTags tx in
     let bulk := through_rows now visible (p_id post) instances in
     if pk_violation visible bulk
     then throw (UniqueConstraintError "PostTags_pkey")
     else ret (mkTxn (tx_posts tx) (tx_postTags tx ++ bulk))).

(** [post.addTag(tag)] *)
Definition addTag (now : nat) (post : PostRow) (g : TagRow) : M unit :=
  t <- get_db ;;
  let bulk := through_rows now (postTags t) (p_id post) [g] in
  if pk_violation (postTags t) bulk
  then throw (UniqueConstraintError "PostTags_pkey")
  else put_db (set_postTags (postTags t ++ bulk) t).

(** [post.removeTag(tag)]: a DELETE of the join rows of the pair. *)
Definition removeTag (post : PostRow) (g : TagRow) : M unit :=
  t <- get_db ;;
  put_db (set_postTags
            (filter (fun r => negb ((postId r =? p_id post) && (tagId r =? t_id g)))
               (postTags t)) t).

(** The [scopes] of the model: each is [{ where: { status } }]. *)
Definition scopes : list (string * Status) :=
  [("active", active); ("archived", archived); ("draft", draft)]%string.

Fixpoint own_scope (l : list (string * Status)) (key : string) : option Status :=
  match l with
  | [] => None
  | (k, st) :: rest => if String.eqb k key then Some st else own_scope rest key
  end.

(** The property names every object literal inherits: for these
    [options.scopes[name]] is a built-in of the runtime and not
    [undefined]. *)
Definition Object_prototype_keys : list string :=
  ["constructor"; "__proto__"; "hasOwnProperty"; "isPrototypeOf";
   "propertyIsEnumerable"; "toLocaleString"; "toString"; "valueOf";
   "__defineGetter__"; "__defineSetter__"; "__lookupGetter__";
   "__lookupSetter__"]%string.

Definition inherited (key : string) : bool :=
  existsb (String.eqb key) Object_prototype_keys.

(** [Post.scope(option)]: the filter on [status] of the scoped model,
    [None] for a model without filter, or the exception thrown.
    - a falsy argument returns the model without any scope;
    - ['defaultScope'] is the default scope, which the model leaves
      empty;
    - a name of [scopes] gives its [where];
    - any other name throws SequelizeScopeError.
    What Sequelize makes of a built-in found under an inherited name is
    left to [builtin]. *)
Definition scope (builtin : string -> result (option Status)) (option_ : string)
  : result (option Status) :=
  if negb (truthy (Str option_)) then Ok None
  else if String.eqb option_ "defaultScope" then Ok None
  else
    match own_scope scopes option_ with
    | Some st => Ok (Some st)
    | None =>
        if inherited option_ then builtin option_
        else Err (ScopeError option_)
    end.

Definition where_ (sc : option Status) (p : PostRow) : bool :=
  match sc, status p with
  | None, _ => true
  | Some a, Some b => Status_eqb a b
  | Some _, None => false
  end.

(** [order: [['createdAt', 'DESC']]] *)
Fixpoint insert_desc (p : PostRow) (l : list PostRow) : list PostRow :=
  match l with
  | [] => [p]
  | q :: rest =>
      if createdAt q <=? createdAt p then p :: l
      else q :: insert_desc p rest
  end.

Definition order_desc (l : list PostRow) : list PostRow :=
  fold_right insert_desc [] l.

(** The rows one post contributes to
    [Posts LEFT OUTER JOIN Users LEFT OUTER JOIN (PostTags JOIN Tags)]. *)
Definition joined_rows (t : Tables) (p : PostRow) : nat :=
  Nat.max 1 (List.length (users_of t p)) * Nat.max 1 (List.length (tags_of t p)).

(** [Post.scope(..).findAndCountAll({ include: [User, Tag], limit,
    offset, order })].
    - [rows]: the posts of the scope in the given order, cut to the
      page (the limit applies to the posts, each with its associations
      nested);
    - [count]: [SELECT count(Post.id)] over the join with the included
      tables; no [distinct: true] is passed, so a post counts once for
      each of its joined rows.
    PostgreSQL refuses a negative LIMIT or OFFSET. *)
Definition findAndCountAll (sc : option Status) (limit offset : Z)
  : M (nat * list PostView) :=
  t <- get_db ;;
  if ((limit <? 0) || (offset <? 0))%Z
  then throw (DatabaseError "LIMIT and OFFSET must not be negative")
  else
    let found := filter (where_ sc) (posts t) in
    let count := list_sum (map (joined_rows t) found) in
    let rows :=
      map (view t)
        (firstn (Z.to_nat limit) (skipn (Z.to_nat offset) (order_desc found))) in
    ret (count, if count =? 0 then [] else rows).

End Post.

(** ** The controllers *)

(** [req.body] of POST /posts: [title], [content] and [status] as strings,
    [null] or missing, [userId] as a number or missing, [tags] as an array
    of strings and [null]s or missing. *)
Record PostBody : Type := mkPostBody {
  b_title : field;
  b_content : field;
  b_userId : option nat;
  b_tags : option (list (option string));
  b_status : field
}.

(** [req.query] of GET /posts: [page] and [limit] are taken at the integer
    they denote, [status] is a single string; each may be missing. *)
Record Query : Type := mkQuery {
  q_page : option Z;
  q_limit : option Z;
  q_status : option string
}.

(** [value || fallback] on a string property *)
Definition or_else (f : field) (fallback : string) : string :=
  match f with
  | Str s => if truthy f then s else fallback
  | _ => fallback
  end.

(** A destructuring default, [{ x = d } = req.query]: it applies to a
    missing property only. *)
Definition default {A} (o : option A) (d : A) : A :=
  match o with
  | Some a => a
  | None => d
  end.

(** [Math.ceil(count / limit)]; the quotient by zero is not a finite
    number and is serialised as [null]. *)
Definition Math_ceil_div (count limit : Z) : option Z :=
  if (limit =? 0)%Z then None else Some (- ((- count) / limit))%Z.

(** [Promise.all(tags.map(tagName => Tag.findOrCreate(...)))]: [map] starts
    the call for every name, no call is cancelled when another one rejects,
    and each one settles on its own; the calls are taken in the order of
    the array.  The result is the first rejection if there is one. *)
Fixpoint Promise_all_findOrCreate (now : nat) (flt : option step) (i : nat)
  (names : list (option string)) : M (list (TagRow * bool)) :=
  match names with
  | [] => ret []
  | n :: rest =>
      fun w =>
        let (w1, r) := Tag.findOrCreate now (fails flt (AtFindOrCreate i)) n w in
        let (w2, rs) := Promise_all_findOrCreate now flt (S i) rest w1 in
        (w2, match r, rs with
             | Ok x, Ok xs => Ok (x :: xs)
             | Err e, _ => Err e
             | Ok _, Err e => Err e
             end)
  end.

Definition json_user (o : option UserRow) : Json :=
  match o with Some u => JUser u | None => JNull end.
Definition json_profile (o : option ProfileRow) : Json :=
  match o with Some p => JProfile p | None => JNull end.
Definition json_post (o : option PostRow) : Json :=
  match o with Some p => JPost p | None => JNull end.
Definition json_tag (o : option TagRow) : Json :=
  match o with Some g => JTag g | None => JNull end.

Section Controllers.

(** The [isEmail] check of the validator library. *)
Variable isEmail : string -> bool.

(** What [Post.scope] makes of a property inherited from
    [Object.prototype]. *)
Variable builtin : string -> result (option Status).

(** *** controllers/userController.js *)

Definition createUser (now : nat) (fn ln em : field) : World -> World * Response :=
  try_catch
    (user <- User.create isEmail now fn ln em ;;
     ret (mkResponse 201 (JUser user)))
    (fun error => respond 400 (JError error)).

Definition updateUser (now : nat) (id : nat) (fn ln em : field)
  : World -> World * Response :=
  try_catch
    (updated <- User.update isEmail now fn ln em id ;;
     if 0 <? updated then
       updatedUser <- User.findByPk (Some id) ;;
       ret (mkResponse 200 (json_user updatedUser))
     else ret (mkResponse 404 (JMessage "User not found")))
    (fun error => respond 500 (JError error)).

Definition deleteUser (id : nat) : World -> World * Response :=
  try_catch
    (deleted <- User.destroy id ;;
     if 0 <? deleted then ret (mkResponse 204 JNone)
     else ret (mkResponse 404 (JMessage "User not found")))
    (fun error => respond 500 (JError error)).

(** *** controllers/profileController.js *)

Definition createProfile (now : nat) (b : field) (uid : option nat)
  : World -> World * Response :=
  try_catch
    (user <- User.findByPk uid ;;
     match user, uid with
     | Some _, Some i =>
         profile <- Profile.create now b i ;;
         ret (mkResponse 201 (JProfile profile))
     | _, _ => ret (mkResponse 404 (JMessage "User not found"))
     end)
    (fun error => respond 400 (JError error)).

Definition updateProfile (now : nat) (uid : nat) (b : field)
  : World -> World * Response :=
  try_catch
    (updated <- Profile.update now b uid ;;
     if 0 <? updated then
       updatedProfile <- Profile.findOne uid ;;
       ret (mkResponse 200 (json_profile updatedProfile))
     else ret (mkResponse 404 (JMessage "Profile not found")))
    (fun error => respond 400 (JError error)).

Definition deleteProfile (uid : nat) : World -> World * Response :=
  try_catch
    (deleted <- Profile.destroy uid ;;
     if 0 <? deleted then ret (mkResponse 204 JNone)
     else ret (mkResponse 404 (JMessage "Profile not found")))
    (fun error => respond 500 (JError error)).

(** *** controllers/tagController.js *)

Definition createTag (now : nat) (n : field) : World -> World * Response :=
  try_catch
    (tag <- Tag.create now n ;;
     ret (mkResponse 201 (JTag tag)))
    (fun error => respond 400 (JError error)).

Definition updateTag (now : nat) (id : nat) (n : field)
  : World -> World * Response :=
  try_catch
    (updated <- Tag.update now n id ;;
     if 0 <? updated then
       updatedTag <- Tag.findByPk (Some id) ;;
       ret (mkResponse 200 (json_tag updatedTag))
     else ret (mkResponse 404 (JMessage "Tag not found")))
    (fun error => respond 400 (JError error)).

Definition deleteTag (id : nat) : World -> World * Response :=
  try_catch
    (deleted <- Tag.destroy id ;;
     if 0 <? deleted then ret (mkResponse 204 JNone)
     else ret (mkResponse 404 (JMessage "Tag not found")))
    (fun error => respond 500 (JError error)).

(** *** controllers/postController.js *)

(** The transaction is opened before the [try]; the user lookup and the
    [Tag.findOrCreate] calls are made without [{ transaction }]. *)
Definition createPost (now : nat) (flt : option step) (body : PostBody)
  : World -> World * Response :=
  let transaction := sequelize_transaction in
  try_catch
    (user <- query (fails flt AtUserLookup) (User.findByPk (b_userId body)) ;;
     match user, b_userId body with
     | Some _, Some uid =>
         created <- Post.create now flt (b_title body) (b_content body) uid
                      (or_else (b_status body) "draft") transaction ;;
         let (tx, post) := created in
         tx' <- match b_tags body with
                | Some (n :: rest) =>
                    tagInstances <- Promise_all_findOrCreate now flt 0 (n :: rest) ;;
                    Post.addTags now flt post (map fst tagInstances) tx
                | _ => ret tx
                end ;;
         commit tx' ;;;
         ret (mkResponse 201 (JPost post))
     | _, _ => throw (JsError "User not found")
     end)
    (fun error => fun w =>
       let (w', _) := rollback w in
       respond 400 (JError error) w').

Definition getAllPosts (q : Query) : World -> World * Response :=
  let page := default (q_page q) 1%Z in
  let limit := default (q_limit q) 10%Z in
  let sname := default (q_status q) "active"%string in
  try_catch
    (let offset := ((page - 1) * limit)%Z in
     scoped <- lift (Post.scope builtin sname) ;;
     found <- Post.findAndCountAll scoped limit offset ;;
     let (count, rows) := found in
     let totalPages := Math_ceil_div (Z.of_nat count) limit in
     ret (mkResponse 200 (JPage rows totalPages page)))
    (fun error => respond 500 (JError error)).

Definition getPostById (id : nat) : World -> World * Response :=
  try_catch
    (post <- Post.findByPk_include id ;;
     match post with
     | None => ret (mkResponse 404 (JMessage "Post not found"))
     | Some v => ret (mkResponse 200 (JPostFull v))
     end)
    (fun error => respond 500 (JError error)).

(** [title && title.length < 5]; the length is counted in characters. *)
Definition title_too_short (ti : field) : bool :=
  truthy ti &&
  match ti with
  | Str s => String.length s <? 5
  | _ => false
  end.

Definition updatePost (now : nat) (id : nat) (ti co st : field)
  : World -> World * Response :=
  try_catch
    (if title_too_short ti
     then throw (JsError "Title must be at least 5 characters long.")
     else
       updated <- Post.update now ti co st id ;;
       if 0 <? updated then
         updatedPost <- Post.findByPk id ;;
         ret (mkResponse 200 (json_post updatedPost))
       else ret (mkResponse 404 (JMessage "Post not found")))
    (fun error => respond 400 (JError error)).

Definition deletePost (id : nat) : World -> World * Response :=
  try_catch
    (deleted <- Post.destroy id ;;
     if 0 <? deleted then ret (mkResponse 204 JNone)
     else ret (mkResponse 404 (JMessage "Post not found")))
    (fun error => respond 500 (JError error)).

(** *** controllers/postTagController.js *)

Definition addTagToPost (now : nat) (pid : nat) (tid : option nat)
  : World -> World * Response :=
  try_catch
    (post <- Post.findByPk pid ;;
     tag <- Tag.findByPk tid ;;
     match post, tag with
     | Some p, Some g =>
         Post.addTag now p g ;;;
         ret (mkResponse 200 (JMessage "Tag added to post successfully"))
     | _, _ => ret (mkResponse 404 (JMessage "Post or Tag not found"))
     end)
    (fun error => respond 500 (JError error)).

Definition removeTagFromPost (pid : nat) (tid : option nat)
  : World -> World * Response :=
  try_catch
    (post <- Post.findByPk pid ;;
     tag <- Tag.findByPk tid ;;
     match post, tag with
     | Some p, Some g =>
         Post.removeTag p g ;;;
         ret (mkResponse 200 (JMessage "Tag removed from post successfully"))
     | _, _ => ret (mkResponse 404 (JMessage "Post or Tag not found"))
     end)
    (fun error => respond 500 (JError error)).

(** *** The routes (routes/*.js) *)

Inductive request : Type :=
| POST_users (fn ln em : field)
| PUT_users (id : nat) (fn ln em : field)
| DELETE_users (id : nat)
| POST_profiles (b : field) (uid : option nat)
| PUT_profiles (uid : nat) (b : field)
| DELETE_profiles (uid : nat)
| POST_posts (body : PostBody) (flt : option step)
| GET_posts (q : Query)
| GET_posts_id (id : nat)
| PUT_posts (id : nat) (ti co st : field)
| DELETE_posts (id : nat)
| POST_tags (n : field)
| PUT_tags (id : nat) (n : field)
| DELETE_tags (id : nat)
| POST_post_tags (pid : nat) (tid : option nat)
| DELETE_post_tags (pid : nat) (tid : option nat).

(** One request served at the instant [now].  The GET routes of users,
    profiles and tags only read and are left out. *)
Definition handle (now : nat) (r : request) : World -> World * Response :=
  match r with
  | POST_users fn ln em => createUser now fn ln em
  | PUT_users id fn ln em => updateUser now id fn ln em
  | DELETE_users id => deleteUser id
  | POST_profiles b uid => createProfile now b uid
  | PUT_profiles uid b => updateProfile now uid b
  | DELETE_profiles uid => deleteProfile uid
  | POST_posts body flt => createPost now flt body
  | GET_posts q => getAllPosts q
  | GET_posts_id id => getPostById id
  | PUT_posts id ti co st => updatePost now id ti co st
  | DELETE_posts id => deletePost id
  | POST_tags n => createTag now n
  | PUT_tags id n => updateTag now id n
  | DELETE_tags id => deleteTag id
  | POST_post_tags pid tid => addTagToPost now pid tid
  | DELETE_post_tags pid tid => removeTagFromPost pid tid
  end.

(** The states the server can be in: the synchronised empty database
    and whatever a served request leaves. *)
Inductive reachable : World -> Prop :=
| reachable_initial : reachable initial
| reachable_step : forall w now r,
    reachable w -> reachable (fst (handle now r w)).

End Controllers.

(** ** Observations on the storage *)

Definition find_post (k : nat) (w : World) : option PostRow :=
  find (fun p => p_id p =? k) (posts (db w)).

Definition find_tag (k : option nat) (w : World) : option TagRow :=
  match k with
  | Some i => find (fun g => t_id g =? i) (tags (db w))
  | None => None
  end.

Definition find_user (k : option nat) (w : World) : option UserRow :=
  match k with
  | Some i => find (fun u => u_id u =? i) (users (db w))
  | None => None
  end.

(** What holds of the storage in every state the server reaches: the
    primary keys of users and tags are unique and below their sequence,
    no two users share an email, every post has its key below the
    sequence and carries a title and a content, and no join row names a
    post that is still to be numbered. *)
Record Inv (w : World) : Prop := mkInv {
  inv_user_ids : Forall (fun u => u_id u < users_id_seq (seqs w)) (users (db w));
  inv_user_keys : NoDup (map u_id (users (db w)));
  inv_emails : NoDup (map email (users (db w)));
  inv_posts : Forall (fun p => p_id p < posts_id_seq (seqs w)
                               /\ title p <> None /\ content p <> None)
                (posts (db w));
  inv_links : Forall (fun r => postId r < posts_id_seq (seqs w)) (postTags (db w));
  inv_tag_ids : Forall (fun g => t_id g < tags_id_seq (seqs w)) (tags (db w));
  inv_tag_keys : NoDup (map t_id (tags (db w)))
}.

(** A computation that keeps the invariant, whether it returns or
    throws. *)
Definition preserves {A} (m : M A) : Prop :=
  forall w w' r, m w = (w', r) -> Inv w -> Inv w'.

(** [tags_grew w w']: from [w] to [w'] nothing but the tag table and its
    sequence moved, and the tag table only gained rows. *)
Definition tags_grew (w w' : World) : Prop :=
  users (db w') = users (db w) /\
  profiles (db w') = profiles (db w) /\
  posts (db w') = posts (db w) /\
  postTags (db w') = postTags (db w) /\
  (exists extra, tags (db w') = tags (db w) ++ extra) /\
  users_id_seq (seqs w') = users_id_seq (seqs w) /\
  profiles_id_seq (seqs w') = profiles_id_seq (seqs w) /\
  posts_id_seq (seqs w') = posts_id_seq (seqs w) /\
  console w' = console w.

(** [rows_kept w w']: the rows of users, profiles, posts and of the join
    table are the same in [w'] as in [w], and no tag row of [w] is lost. *)
Definition rows_kept (w w' : World) : Prop :=
  users (db w') = users (db w) /\
  profiles (db w') = profiles (db w) /\
  posts (db w') = posts (db w) /\
  postTags (db w') = postTags (db w) /\
  exists extra, tags (db w') = tags (db w) ++ extra.

(** The tag instances [createPost] hands to [post.addTags] for the post
    numbered [pid], and the world the calls of [Tag.findOrCreate] leave. *)
Definition tag_stage (now : nat) (flt : option step) (body : PostBody) (pid : nat)
  (w1 w2 : World) (instances : list TagRow) : Prop :=
  match b_tags body with
  | Some (n :: rest) =>
      exists xs,
        Promise_all_findOrCreate now flt 0 (n :: rest) w1 = (w2, Ok xs) /\
        instances = map fst xs /\
        fails flt AtAddTags = false /\
        pk_violation (postTags (db w2))
          (through_rows now (postTags (db w2)) pid instances) = false
  | _ => w2 = w1 /\ instances = []
  end.

(** A sequence of requests, each with the instant at which it is served. *)
Fixpoint serve (isEmail : string -> bool)
  (builtin : string -> result (option Status))
  (events : list (nat * request)) (w : World) : World :=
  match events with
  | [] => w
  | (now, r) :: rest => serve isEmail builtin rest (fst (handle isEmail builtin now r w))
  end.

(** ** Sample data *)

(** A stand-in for the validator library, to run the controllers on
    sample requests: an address is taken to need an at sign. *)
Definition has_at (s : string) : bool :=
  existsb (Ascii.eqb "@"%char) (list_ascii_of_string s).

(** A stand-in for the treatment of inherited names by the runtime. *)
Definition no_builtin (key : string) : result (option Status) :=
  Err (JsError "not a scope").

(** One registered user and nothing else. *)
Definition alice_world : World :=
  serve has_at no_builtin
    [(1, POST_users (Str "Alice") (Str "Johnson") (Str "alice@example.com"))]
    initial.

Definition plain_body (ti : string) (st : field) (names : list (option string))
  : PostBody :=
  mkPostBody (Str ti) (Str "Some text.") (Some 1) (Some names) st.

(** Alice with one active and one draft post. *)
Definition two_posts_world : World :=
  serve has_at no_builtin
    [(10, POST_posts (plain_body "Published" (Str "active") []) None);
     (20, POST_posts (plain_body "Unfinished" Undefined []) None)]
    alice_world.

(** Alice with five active posts, the first of which carries three
    tags. *)
Definition five_active_world : World :=
  serve has_at no_builtin
    [(10, POST_posts (plain_body "First post"  (Str "active")
                        [Some "Technology"; Some "Programming"; Some "Web Development"]%string)
            None);
     (20, POST_posts (plain_body "Second post" (Str "active") []) None);
     (30, POST_posts (plain_body "Third post"  (Str "active") []) None);
     (40, POST_posts (plain_body "Fourth post" (Str "active") []) None);
     (50, POST_posts (plain_body "Fifth post"  (Str "active") []) None)]
    alice_world.

(** Five active posts without tags. *)
Definition five_untagged_world : World :=
  serve has_at no_builtin
    [(10, POST_posts (plain_body "First post"  (Str "active") []) None);
     (20, POST_posts (plain_body "Second post" (Str "active") []) None);
     (30, POST_posts (plain_body "Third post"  (Str "active") []) None);
     (40, POST_posts (plain_body "Fourth post" (Str "active") []) None);
     (50, POST_posts (plain_body "Fifth post"  (Str "active") []) None)]
    alice_world.

Definition later_first (a b : PostRow) : Prop := createdAt b <= createdAt a.

(** Rows in the order of [createdAt] descending. *)
Definition newest_first (rows : list PostView) : Prop :=
  Sorted (fun a b => createdAt (pv_post b) <= createdAt (pv_post a)) rows.

(** Requests of Alice used below. *)
Definition ab_body : PostBody :=
  plain_body "Hello world" Undefined [Some "a"; Some "b"]%string.

Definition null_tag_body : PostBody :=
  plain_body "Hello world" Undefined [Some "a"%string; None].

Definition three_tags_body : PostBody :=
  plain_body "Hello world" Undefined [Some "a"; Some "b"; Some "c"]%string.

Definition empty_title_body : PostBody :=
  mkPostBody (Str EmptyString) (Str EmptyString) (Some 1) None Undefined.

Definition alice : UserRow := mkUser 1 "Alice" "Johnson" "alice@example.com" 1 1.

(** ** The read-only routes of users, profiles and tags *)

(** A user with the associations loaded by [include: [Profile, Post]]. *)
Record UserView : Type := mkUserView {
  uv_user : UserRow;
  uv_Profile : option ProfileRow;
  uv_Posts : list PostRow
}.

(** A profile with the association loaded by [include: [User]]. *)
Record ProfileView : Type := mkProfileView {
  prv_profile : ProfileRow;
  prv_User : option UserRow
}.

(** The documents these routes answer with. *)
Inductive Document : Type :=
| DUsers (l : list UserRow)
| DUser (v : UserView)
| DProfile (v : ProfileView)
| DTags (l : list TagRow)
| DMessage (m : string)
| DError (e : Error).

Record Reply : Type := mkReply {
  reply_code : nat;
  document : Document
}.

Definition try_catch_reply (body : M Reply) (handler : Error -> World -> World * Reply)
  : World -> World * Reply :=
  fun w =>
    match body w with
    | (w', Ok r) => (w', r)
    | (w', Err e) => handler e w'
    end.

Definition reply (c : nat) (d : Document) : World -> World * Reply :=
  fun w => (w, mkReply c d).

(** [User.findAll()] *)
Definition User_findAll : M (list UserRow) := fun w => (w, Ok (users (db w))).

(** [Tag.findAll()] *)
Definition Tag_findAll : M (list TagRow) := fun w => (w, Ok (tags (db w))).

(** [User.findByPk(id, { include: [Profile, Post] })]: the profile of the
    [hasOne] association and the posts of the [hasMany] association. *)
Definition User_findByPk_include (k : nat) : M (option UserView) :=
  fun w =>
    (w, Ok (option_map
              (fun u => mkUserView u
                          (find (fun p => pr_userId p =? u_id u) (profiles (db w)))
                          (filter (fun p => userId p =? u_id u) (posts (db w))))
              (find (fun u => u_id u =? k) (users (db w))))).

(** [Profile.findOne({ where: { userId }, include: [User] })] *)
Definition Profile_findOne_include (uid : nat) : M (option ProfileView) :=
  fun w =>
    (w, Ok (option_map
              (fun p => mkProfileView p
                          (find (fun u => u_id u =? pr_userId p) (users (db w))))
              (find (fun p => pr_userId p =? uid) (profiles (db w))))).

(** controllers/userController.js *)
Definition getAllUsers : World -> World * Reply :=
  try_catch_reply
    (found <- User_findAll ;;
     ret (mkReply 200 (DUsers found)))
    (fun error => reply 500 (DError error)).

Definition getUserById (id : nat) : World -> World * Reply :=
  try_catch_reply
    (user <- User_findByPk_include id ;;
     match user with
     | Some v => ret (mkReply 200 (DUser v))
     | None => ret (mkReply 404 (DMessage "User not found"))
     end)
    (fun error => reply 500 (DError error)).

(** controllers/profileController.js *)
Definition getProfile (uid : nat) : World -> World * Reply :=
  try_catch_reply
    (profile <- Profile_findOne_include uid ;;
     match profile with
     | None => ret (mkReply 404 (DMessage "Profile not found"))
     | Some v => ret (mkReply 200 (DProfile v))
     end)
    (fun error => reply 500 (DError error)).

(** controllers/tagController.js *)
Definition getAllTags : World -> World * Reply :=
  try_catch_reply
    (found <- Tag_findAll ;;
     ret (mkReply 200 (DTags found)))
    (fun error => reply 500 (DError error)).

(** ** migrations/20241007104442-rename-bio-to-description-in-profiles.js *)

(** The tables of the database with the names of their columns. *)
Definition Schema : Type := list (string * list string).

Definition rename (from to : string) (col : string) : string :=
  if String.eqb col from then to else col.

(** [queryInterface.renameColumn(table, from, to)]: ALTER TABLE .. RENAME
    COLUMN, which PostgreSQL refuses when the table or the column is
    missing or when the new name is taken. *)
Fixpoint renameColumn (table from to : string) (s : Schema) : result Schema :=
  match s with
  | [] => Err (DatabaseError "relation does not exist")
  | (t, cols) :: rest =>
      if String.eqb t table then
        if negb (existsb (String.eqb from) cols)
        then Err (DatabaseError "column does not exist")
        else if existsb (String.eqb to) cols
        then Err (DatabaseError "column already exists")
        else Ok ((t, map (rename from to) cols) :: rest)
      else
        match renameColumn table from to rest with
        | Ok rest' => Ok ((t, cols) :: rest')
        | Err e => Err e
        end
  end.

Definition up (s : Schema) : result Schema :=
  renameColumn "Profiles" "bio" "description" s.

Definition down (s : Schema) : result Schema :=
  renameColumn "Profiles" "description" "bio" s.

(** The columns of a table of the schema. *)
Fixpoint columns_of (table : string) (s : Schema) : list string :=
  match s with
  | [] => []
  | (t, cols) :: rest => if String.eqb t table then cols else columns_of table rest
  end.

(** The schema [sequelize.sync] derives from the models. *)
Definition synced_schema : Schema :=
  [("Users", ["id"; "firstName"; "lastName"; "email"; "createdAt"; "updatedAt"]);
   ("Profiles", ["id"; "bio"; "userId"; "createdAt"; "updatedAt"]);
   ("Posts", ["id"; "title"; "content"; "userId"; "status"; "createdAt"; "updatedAt"]);
   ("Tags", ["id"; "name"; "createdAt"; "updatedAt"]);
   ("PostTags", ["postId"; "tagId"; "createdAt"; "updatedAt"])]%string.

(** ** References between the tables *)

(** Every profile and every post belongs to a stored user, and every join
    row links a stored post to a stored tag. *)
Record Refs (w : World) : Prop := mkRefs {
  refs_profiles :
    Forall (fun p => find_user (Some (pr_userId p)) w <> None) (profiles (db w));
  refs_posts :
    Forall (fun p => find_user (Some (userId p)) w <> None) (posts (db w));
  refs_links :
    Forall (fun r => find_post (postId r) w <> None /\ find_tag (Some (tagId r)) w <> None)
      (postTags (db w))
}.

(** A user, a post, a tag of a given key is stored. *)
Definition has_user (t : Tables) (uid : nat) : Prop :=
  exists u, In u (users t) /\ u_id u = uid.
Definition has_post (t : Tables) (pid : nat) : Prop :=
  exists p, In p (posts t) /\ p_id p = pid.
Definition has_tag (t : Tables) (tid : nat) : Prop :=
  exists g, In g (tags t) /\ t_id g = tid.

(** [Refs] on the tables, row by row. *)
Definition References (t : Tables) : Prop :=
  (forall p, In p (profiles t) -> has_user t (pr_userId p)) /\
  (forall p, In p (posts t) -> has_user t (userId p)) /\
  (forall r, In r (postTags t) -> has_post t (postId r) /\ has_tag t (tagId r)).

(** A computation that keeps the references, whether it returns or
    throws. *)
Definition keeps_refs {A} (m : M A) : Prop :=
  forall w w' r, m w = (w', r) -> Refs w -> Refs w'.

(** The pair of keys a join row links. *)
Definition pair_of (r : PostTagRow) : nat * nat := (postId r, tagId r).

(** The primary keys of the posts and of the join table: no two posts
    share an id and no pair of a post and a tag is linked twice. *)
Record Keys (w : World) : Prop := mkKeys {
  keys_posts : NoDup (map p_id (posts (db w)));
  keys_links : NoDup (map pair_of (postTags (db w)))
}.

(** A computation that keeps these keys, whether it returns or throws. *)
Definition keeps_keys {A} (m : M A) : Prop :=
  forall w w' r, m w = (w', r) -> Keys w -> Keys w'.


(** More sample data: Alice and Bob, Alice with a profile, one post of
    Alice linked to the tag Technology, and a second tag. *)
Definition blog_world : World :=
  serve has_at no_builtin
    [(1, POST_users (Str "Alice") (Str "Johnson") (Str "alice@example.com"));
     (2, POST_users (Str "Bob") (Str "Smith") (Str "bob@example.com"));
     (3, POST_profiles (Str "Alice is a web developer") (Some 1));
     (4, POST_posts (plain_body "First post" (Str "active") [Some "Technology"%string]) None);
     (5, POST_tags (Str "Programming"))]
    initial.

(** The rows of [blog_world]. *)
Definition bob : UserRow := mkUser 2 "Bob" "Smith" "bob@example.com" 2 2.
Definition alice_profile : ProfileRow :=
  mkProfile 1 (Some "Alice is a web developer"%string) 1 3 3.
Definition first_post : PostRow :=
  mkPost 1 (Some "First post"%string) (Some "Some text."%string) 1 (Some active) 4 4.
Definition technology : TagRow := mkTag 1 "Technology" 4 4.
Definition programming : TagRow := mkTag 2 "Programming" 5 5.

(** A request of a user that is not stored, and one that names the two
    stored tags. *)
Definition stranger_body : PostBody :=
  mkPostBody (Str "Hello world") (Str "Some text.") (Some 9) None Undefined.
Definition stored_tags_body : PostBody :=
  plain_body "Second post" Undefined [Some "Technology"; Some "Programming"]%string.


(** * Properties *)

Section Properties.

Variable isEmail : string -> bool.
Variable builtin : string -> result (option Status).

(** ** Lists *)

Lemma filter_none {A} (f : A -> bool) (l : list A) :
  existsb f l = false -> filter (fun x => negb (f x)) l = l.
Proof.
  induction l as [|x l IH]; cbn; [reflexivity|].
  intros H. apply orb_false_iff in H. destruct H as [Hx Hl].
  rewrite Hx. cbn. now rewrite IH.
Qed.

Lemma world_eta (w : World) : mkWorld (db w) (seqs w) (console w) = w.
Proof. now destruct w. Qed.

Lemma tables_eta (t : Tables) :
  mkTables (users t) (profiles t) (posts t) (tags t) (postTags t) = t.
Proof. now destruct t. Qed.

(** ** Not-found answers of the tag association *)

(** The observations are what the lookups of the models return. *)
Lemma Post_findByPk_find k w : Post.findByPk k w = (w, Ok (find_post k w)).
Proof. reflexivity. Qed.

Lemma Tag_findByPk_find k w : Tag.findByPk k w = (w, Ok (find_tag k w)).
Proof. reflexivity. Qed.

Lemma User_findByPk_find k w : User.findByPk k w = (w, Ok (find_user k w)).
Proof. reflexivity. Qed.





(** ** The invariant of the storage *)

(** A DELETE keeps a key unique. *)
Lemma NoDup_map_filter {Row Key} (key : Row -> Key) (keep : Row -> bool)
  (rows : list Row) (unique : NoDup (map key rows)) :
  NoDup (map key (filter keep rows)).
Proof.
  induction rows as [|r rows IH]; cbn in *; [constructor|].
  apply NoDup_cons_iff in unique. destruct unique as [fresh unique].
  destruct (keep r); cbn; [constructor|]; auto.
  intros Hin. apply fresh. apply in_map_iff in Hin.
  destruct Hin as [y [Hy Hin]]. apply filter_In in Hin.
  apply in_map_iff. exists y. tauto.
Qed.

Lemma NoDup_map_snoc {A} (f : A -> nat) (l : list A) (x : A) :
  NoDup (map f l) -> Forall (fun y => f y < f x) l -> NoDup (map f (l ++ [x])).
Proof.
  intros Hn Hb. rewrite map_app. cbn.
  apply NoDup_app; [assumption | repeat constructor; intros [] | ].
  intros a Ha [Hb' | []]. subst a.
  apply in_map_iff in Ha. destruct Ha as [y [Hy Hin]].
  rewrite Forall_forall in Hb. specialize (Hb _ Hin). lia.
Qed.

Lemma Forall_snoc {A} (P : A -> Prop) (l : list A) (x : A) :
  Forall P l -> P x -> Forall P (l ++ [x]).
Proof. intros. apply Forall_app. split; auto. Qed.

Lemma Forall_filter {A} (P : A -> Prop) (p : A -> bool) (l : list A) :
  Forall P l -> Forall P (filter p l).
Proof.
  rewrite !Forall_forall. intros H x Hx. apply filter_In in Hx. apply H. tauto.
Qed.

Lemma Forall_map_same {A} (P : A -> Prop) (f : A -> A) (l : list A) :
  (forall x, P x -> P (f x)) -> Forall P l -> Forall P (map f l).
Proof.
  intros Hf H. apply Forall_map. revert H. apply Forall_impl. exact Hf.
Qed.


Lemma Forall_lt_S {A} (f : A -> nat) (n : nat) (l : list A) :
  Forall (fun x => f x < n) l -> Forall (fun x => f x < S n) l.
Proof. apply Forall_impl. intros; lia. Qed.

Lemma posts_lt_S (n : nat) (l : list PostRow) :
  Forall (fun p => p_id p < n /\ title p <> None /\ content p <> None) l ->
  Forall (fun p => p_id p < S n /\ title p <> None /\ content p <> None) l.
Proof. apply Forall_impl. intros ? (? & ? & ?). repeat split; auto. Qed.

Lemma existsb_email_false (l : list UserRow) (c : string) :
  existsb (fun u => String.eqb (email u) c) l = false -> ~ In c (map email l).
Proof.
  intros H Hin. apply in_map_iff in Hin. destruct Hin as [u [Hu Hin]].
  assert (E : existsb (fun u => String.eqb (email u) c) l = true).
  { apply existsb_exists. exists u. split; [assumption|]. now apply String.eqb_eq. }
  congruence.
Qed.

Lemma NoDup_snoc {A} (l : list A) (x : A) :
  NoDup l -> ~ In x l -> NoDup (l ++ [x]).
Proof.
  intros Hn Hx. apply NoDup_app; [assumption | repeat constructor; intros [] |].
  intros a Ha [E | []]. now subst a.
Qed.

(** Unfolding of the awaited calls. *)
Ltac run :=
  unfold try_catch, respond, bind, ret, throw, lift, query, get_db, put_db,
    console_log, nextval_users, nextval_profiles, nextval_posts, nextval_tags,
    commit, rollback in *;
  cbn [fst snd db seqs console users profiles posts tags postTags
       users_id_seq profiles_id_seq posts_id_seq tags_id_seq
       set_users set_profiles set_posts set_tags set_postTags] in *.

Ltac inv_pair H := injection H as <- <-.

Ltac splits := repeat match goal with |- _ /\ _ => split end.

Lemma preserves_ret {A} (a : A) : preserves (ret a).
Proof. intros w w' r H I. run. now inv_pair H. Qed.

Lemma preserves_throw {A} (e : Error) : preserves (@throw A e).
Proof. intros w w' r H I. run. now inv_pair H. Qed.

Lemma preserves_lift {A} (x : result A) : preserves (lift x).
Proof. intros w w' r H I. run. now inv_pair H. Qed.

Lemma preserves_bind {A B} (m : M A) (k : A -> M B) :
  preserves m -> (forall a, preserves (k a)) -> preserves (bind m k).
Proof.
  intros Hm Hk w w' r H I. unfold bind in H.
  destruct (m w) as [w1 [a|e]] eqn:E.
  - eapply Hk; eauto.
  - inv_pair H. eauto.
Qed.

Lemma preserves_query {A} (b : bool) (m : M A) :
  preserves m -> preserves (query b m).
Proof. intros Hm. unfold query. destruct b; [apply preserves_throw | assumption]. Qed.

Lemma preserves_console_log (s : string) : preserves (console_log s).
Proof.
  intros w w' r H I. run. inv_pair H. destruct I. constructor; assumption.
Qed.

Lemma preserves_User_findByPk k : preserves (User.findByPk k).
Proof. intros w w' r H I. unfold User.findByPk in H. now inv_pair H. Qed.

Lemma preserves_Tag_findByPk k : preserves (Tag.findByPk k).
Proof. intros w w' r H I. unfold Tag.findByPk in H. now inv_pair H. Qed.

Lemma preserves_Post_findByPk k : preserves (Post.findByPk k).
Proof. intros w w' r H I. unfold Post.findByPk in H. now inv_pair H. Qed.

Lemma preserves_Profile_findOne k : preserves (Profile.findOne k).
Proof. intros w w' r H I. unfold Profile.findOne in H. now inv_pair H. Qed.

Lemma preserves_User_create now fn ln em :
  preserves (User.create isEmail now fn ln em).
Proof.
  intros w w' r H I. unfold User.create, User.afterCreate in H.
  destruct (User.validate isEmail fn ln em); [|run; now inv_pair H].
  destruct fn; try (run; now inv_pair H).
  destruct ln; try (run; now inv_pair H).
  destruct em as [| |c]; try (run; now inv_pair H).
  run. destruct (existsb _ _) eqn:E; inv_pair H; destruct I; constructor; cbn in *;
    auto using Forall_lt_S.
  - apply Forall_snoc; [now apply Forall_lt_S | cbn; lia].
  - now apply NoDup_map_snoc.
  - rewrite map_app. cbn. apply NoDup_snoc; [assumption|].
    now apply existsb_email_false.
Qed.

Lemma map_id_same {A B} (f : A -> B) (g : A -> A) (l : list A) :
  (forall x, f (g x) = f x) -> map f (map g l) = map f l.
Proof. intros H. rewrite map_map. apply map_ext. exact H. Qed.

Lemma map_unhit {A} (hit : A -> bool) (g : A -> A) (l : list A) :
  existsb hit l = false -> map (fun x => if hit x then g x else x) l = l.
Proof.
  induction l as [|x l IH]; cbn; [reflexivity|].
  intros H. apply orb_false_iff in H. destruct H as [Hx Hl].
  now rewrite Hx, IH.
Qed.

(** An UPDATE of the email of the row with key [k] keeps the emails
    distinct when no other row carries the new email. *)
Lemma NoDup_email_update (k : nat) (s : string) (g : UserRow -> UserRow)
  (l : list UserRow) :
  (forall u, email (g u) = s) ->
  NoDup (map u_id l) -> NoDup (map email l) ->
  existsb (fun u => negb (u_id u =? k) && String.eqb (email u) s) l = false ->
  NoDup (map email (map (fun u => if u_id u =? k then g u else u) l)).
Proof.
  intros Hg. induction l as [|x l IH]; cbn; intros Hk He Hc; [constructor|].
  apply orb_false_iff in Hc. destruct Hc as [Hx Hc].
  inversion Hk as [|? ? Hkx Hkl]; subst. inversion He as [|? ? Hex Hel]; subst.
  destruct (u_id x =? k) eqn:E.
  - apply Nat.eqb_eq in E. rewrite map_unhit.
    + rewrite Hg. constructor; [|assumption].
      intros Hin. apply in_map_iff in Hin. destruct Hin as [y [Hy Hin]].
      assert (T : existsb (fun u => negb (u_id u =? k) && String.eqb (email u) s) l = true).
      { apply existsb_exists. exists y. split; [assumption|].
        apply andb_true_iff. split; [|now apply String.eqb_eq].
        apply negb_true_iff, Nat.eqb_neq. intros Ey. apply Hkx.
        apply in_map_iff. exists y. split; [congruence | assumption]. }
      congruence.
    + destruct (existsb (fun u => u_id u =? k) l) eqn:X; [|reflexivity].
      apply existsb_exists in X. destruct X as [y [Hin Hy]].
      apply Nat.eqb_eq in Hy. exfalso. apply Hkx.
      apply in_map_iff. exists y. split; [congruence | assumption].
  - constructor; [|now apply IH].
    cbn in Hx. apply String.eqb_neq in Hx.
    intros Hin. apply in_map_iff in Hin. destruct Hin as [y [Hy Hin]].
    apply in_map_iff in Hin. destruct Hin as [z [Hz Hin]]. subst y.
    destruct (u_id z =? k).
    + rewrite Hg in Hy. congruence.
    + apply Hex. apply in_map_iff. exists z. split; assumption.
Qed.

Lemma preserves_User_update now fn ln em k :
  preserves (User.update isEmail now fn ln em k).
Proof.
  intros w w' r H I. unfold User.update in H.
  destruct (User.validate_update isEmail fn ln em); [|run; now inv_pair H].
  run.
  match type of H with context [if ?c then _ else _] => destruct c eqn:C end;
    inv_pair H; [assumption|].
  destruct I. constructor; cbn in *; auto.
  - apply Forall_map_same; [|assumption]. intros u Hu.
    now destruct (u_id u =? k).
  - rewrite map_id_same; [assumption|]. intros u. now destruct (u_id u =? k).
  - destruct em as [| |s]; cbn [patch].
    + rewrite map_id_same; [assumption|]. intros u. now destruct (u_id u =? k).
    + rewrite map_id_same; [assumption|]. intros u. now destruct (u_id u =? k).
    + apply andb_false_iff in C. destruct C as [C | C].
      * rewrite map_unhit; assumption.
      * apply NoDup_email_update with (s := s); auto.
Qed.

Lemma preserves_User_destroy k : preserves (User.destroy k).
Proof.
  intros w w' r H I. unfold User.destroy in H. run. inv_pair H.
  destruct I. constructor; cbn in *;
    auto using Forall_filter, NoDup_map_filter.
Qed.

Lemma preserves_Profile_create now b uid : preserves (Profile.create now b uid).
Proof.
  intros w w' r H I. unfold Profile.create in H. run. inv_pair H.
  destruct I. constructor; cbn in *; assumption.
Qed.

Lemma preserves_Profile_update now b uid : preserves (Profile.update now b uid).
Proof.
  intros w w' r H I. unfold Profile.update in H. run. inv_pair H.
  destruct I. constructor; cbn in *; assumption.
Qed.

Lemma preserves_Profile_destroy uid : preserves (Profile.destroy uid).
Proof.
  intros w w' r H I. unfold Profile.destroy in H. run. inv_pair H.
  destruct I. constructor; cbn in *; assumption.
Qed.

Lemma preserves_Tag_create now n : preserves (Tag.create now n).
Proof.
  intros w w' r H I. unfold Tag.create in H.
  destruct n as [| |s]; try (run; now inv_pair H).
  run. inv_pair H. destruct I. constructor; cbn in *; auto.
  - apply Forall_snoc; [now apply Forall_lt_S | cbn; lia].
  - now apply NoDup_map_snoc.
Qed.

Lemma preserves_Tag_update now n k : preserves (Tag.update now n k).
Proof.
  intros w w' r H I. unfold Tag.update in H.
  destruct (not_nulled "Tag.name" n); [|run; now inv_pair H].
  run. inv_pair H. destruct I. constructor; cbn in *; auto.
  - apply Forall_map_same; [|assumption]. intros g Hg. now destruct (t_id g =? k).
  - rewrite map_id_same; [assumption|]. intros g. now destruct (t_id g =? k).
Qed.

Lemma preserves_Tag_destroy k : preserves (Tag.destroy k).
Proof.
  intros w w' r H I. unfold Tag.destroy in H. run. inv_pair H.
  destruct I. constructor; cbn in *;
    auto using Forall_filter, NoDup_map_filter.
Qed.

Lemma preserves_Tag_findOrCreate now b n : preserves (Tag.findOrCreate now b n).
Proof.
  unfold Tag.findOrCreate. apply preserves_query.
  apply preserves_bind.
  - intros w w' r H I. run. now inv_pair H.
  - intros t. destruct n as [s|].
    + destruct (find _ _).
      * apply preserves_ret.
      * apply preserves_bind; [apply preserves_Tag_create|]. intros; apply preserves_ret.
    + apply preserves_bind; [apply preserves_Tag_create|]. intros; apply preserves_ret.
Qed.

Lemma preserves_Promise_all now flt names :
  forall i, preserves (Promise_all_findOrCreate now flt i names).
Proof.
  induction names as [|n rest IH]; intros i; cbn [Promise_all_findOrCreate].
  - apply preserves_ret.
  - intros w w' r H I.
    destruct (Tag.findOrCreate now (fails flt (AtFindOrCreate i)) n w) as [w1 r1] eqn:E1.
    destruct (Promise_all_findOrCreate now flt (S i) rest w1) as [w2 r2] eqn:E2.
    inv_pair H. eapply IH; [eassumption|].
    eapply preserves_Tag_findOrCreate; eassumption.
Qed.

Lemma preserves_Post_update now ti co st k : preserves (Post.update now ti co st k).
Proof.
  intros w w' r H I. unfold Post.update in H.
  destruct (not_nulled "Post.title" ti ++ not_nulled "Post.content" co) eqn:V;
    [|run; now inv_pair H].
  apply app_eq_nil in V. destruct V as [Vt Vc].
  run. destruct (Post.patch_status st) as [f|e]; inv_pair H; [|assumption].
  destruct I. constructor; cbn in *; auto.
  apply Forall_map_same; [|assumption]. intros p (Hid & Ht & Hc).
  destruct (p_id p =? k); cbn; [|auto].
  repeat split; [assumption | |].
  - destruct ti; cbn in *; congruence.
  - destruct co; cbn in *; congruence.
Qed.

Lemma preserves_Post_destroy k : preserves (Post.destroy k).
Proof.
  intros w w' r H I. unfold Post.destroy in H. run. inv_pair H.
  destruct I. constructor; cbn in *; auto using Forall_filter.
Qed.

Lemma through_rows_postId now visible pid instances :
  Forall (fun r => postId r = pid) (through_rows now visible pid instances).
Proof.
  unfold through_rows. apply Forall_map. apply Forall_forall. reflexivity.
Qed.

Lemma find_In {A} (f : A -> bool) (l : list A) (x : A) :
  find f l = Some x -> In x l /\ f x = true.
Proof. apply find_some. Qed.

Lemma Inv_post_lt {w p} :
  Inv w -> In p (posts (db w)) -> p_id p < posts_id_seq (seqs w).
Proof.
  intros I Hin. destruct I as [_ _ _ Hp _ _ _].
  rewrite Forall_forall in Hp. now apply Hp.
Qed.

Lemma preserves_Post_addTag now p g w w' r :
  In p (posts (db w)) ->
  Post.addTag now p g w = (w', r) -> Inv w -> Inv w'.
Proof.
  intros Hin H I. pose proof (Inv_post_lt I Hin) as Hlt.
  pose proof (through_rows_postId now (postTags (db w)) (p_id p) [g]) as HT.
  unfold Post.addTag in H. run.
  destruct (pk_violation _ _); inv_pair H; [assumption|].
  destruct I. constructor; cbn [db seqs postTags posts users tags posts_id_seq
                                users_id_seq tags_id_seq]; auto.
  apply Forall_app. split; [assumption|].
  eapply Forall_impl; [|exact HT]. cbn. intros; lia.
Qed.

Lemma preserves_Post_removeTag p g : preserves (Post.removeTag p g).
Proof.
  intros w w' r H I. unfold Post.removeTag in H. run. inv_pair H.
  destruct I. constructor; cbn in *; auto using Forall_filter.
Qed.

(** *** The stages of [createPost] *)

Lemma tags_grew_refl w : tags_grew w w.
Proof. unfold tags_grew. repeat split; try reflexivity. exists []. now rewrite app_nil_r. Qed.

Lemma tags_grew_trans w1 w2 w3 : tags_grew w1 w2 -> tags_grew w2 w3 -> tags_grew w1 w3.
Proof.
  unfold tags_grew.
  intros (A1 & A2 & A3 & A4 & [x Ax] & A5 & A6 & A7 & A8)
         (B1 & B2 & B3 & B4 & [y By] & B5 & B6 & B7 & B8).
  repeat split; try congruence.
  exists (x ++ y). rewrite By, Ax. now rewrite app_assoc.
Qed.

Lemma Tag_create_grew now n w w' r :
  Tag.create now n w = (w', r) -> tags_grew w w'.
Proof.
  unfold Tag.create. destruct n as [| |s]; run; intros H; inv_pair H;
    try apply tags_grew_refl.
  unfold tags_grew; cbn. repeat split; try reflexivity. now eexists.
Qed.

Lemma Tag_findOrCreate_grew now b n w w' r :
  Tag.findOrCreate now b n w = (w', r) -> tags_grew w w'.
Proof.
  unfold Tag.findOrCreate, query. destruct b.
  - unfold throw. intros H; inv_pair H. apply tags_grew_refl.
  - unfold bind at 1. unfold get_db at 1. destruct n as [s|].
    + destruct (find _ _).
      * unfold ret. intros H; inv_pair H. apply tags_grew_refl.
      * unfold bind. destruct (Tag.create now (Str s) w) as [w1 [g|e]] eqn:E;
          unfold ret; intros H; inv_pair H; eapply Tag_create_grew; eassumption.
    + unfold bind. destruct (Tag.create now Null w) as [w1 [g|e]] eqn:E;
        unfold ret; intros H; inv_pair H; eapply Tag_create_grew; eassumption.
Qed.

Lemma Promise_all_grew now flt names :
  forall i w w' r,
    Promise_all_findOrCreate now flt i names w = (w', r) -> tags_grew w w'.
Proof.
  induction names as [|n rest IH]; intros i w w' r; cbn [Promise_all_findOrCreate].
  - unfold ret. intros H; inv_pair H. apply tags_grew_refl.
  - destruct (Tag.findOrCreate now (fails flt (AtFindOrCreate i)) n w) as [w1 r1] eqn:E1.
    destruct (Promise_all_findOrCreate now flt (S i) rest w1) as [w2 r2] eqn:E2.
    intros H; inv_pair H.
    eapply tags_grew_trans; [eapply Tag_findOrCreate_grew | eapply IH]; eassumption.
Qed.

Lemma tags_grew_rows_kept w w' : tags_grew w w' -> rows_kept w w'.
Proof. unfold tags_grew, rows_kept. tauto. Qed.

Lemma rows_kept_same_db w w' : db w' = db w -> rows_kept w w'.
Proof.
  intros E. unfold rows_kept. rewrite E. repeat split.
  exists []. now rewrite app_nil_r.
Qed.

Lemma rows_kept_trans w1 w2 w3 : rows_kept w1 w2 -> rows_kept w2 w3 -> rows_kept w1 w3.
Proof.
  unfold rows_kept.
  intros (A1 & A2 & A3 & A4 & [x Ax]) (B1 & B2 & B3 & B4 & [y By]).
  repeat split; try congruence.
  exists (x ++ y). rewrite By, Ax. now rewrite app_assoc.
Qed.

(** [Post.create] inside the transaction: the tables are not touched; on
    success one value of the sequence is drawn and the row is pending. *)
Lemma Post_create_Ok now flt ti co uid sname tx w w1 tx1 post :
  Post.create now flt ti co uid sname tx w = (w1, Ok (tx1, post)) ->
  exists s,
    Post.validate (column ti) (column co) = [] /\
    status_of_string sname = Some s /\
    fails flt AtPostInsert = false /\
    fails flt AtHookLookup = false /\
    post = mkPost (posts_id_seq (seqs w)) (column ti) (column co) uid (Some s) now now /\
    tx1 = mkTxn (tx_posts tx ++ [post]) (tx_postTags tx) /\
    db w1 = db w /\
    posts_id_seq (seqs w1) = S (posts_id_seq (seqs w)) /\
    users_id_seq (seqs w1) = users_id_seq (seqs w) /\
    tags_id_seq (seqs w1) = tags_id_seq (seqs w).
Proof.
  unfold Post.create, Post.afterCreate, User.findByPk.
  destruct (Post.validate _ _); [|run; discriminate].
  destruct (status_of_string sname) as [s|]; [|run; discriminate].
  destruct (fails flt AtPostInsert); [run; discriminate|].
  destruct (fails flt AtHookLookup); [run; discriminate|].
  run. intros H. exists s.
  destruct (find _ _); injection H as <- <- <-; repeat split; reflexivity.
Qed.

Lemma Post_create_Err now flt ti co uid sname tx w w1 e :
  Post.create now flt ti co uid sname tx w = (w1, Err e) ->
  db w1 = db w /\ (Inv w -> Inv w1).
Proof.
  unfold Post.create, Post.afterCreate, User.findByPk.
  destruct (Post.validate _ _); [|run; intros H; inv_pair H; auto].
  destruct (status_of_string sname) as [s|]; [|run; intros H; inv_pair H; auto].
  destruct (fails flt AtPostInsert); [run; intros H; inv_pair H; auto|].
  destruct (fails flt AtHookLookup).
  - run. intros H. inv_pair H. split; [reflexivity|].
    intros I. destruct I. constructor; cbn in *; auto using posts_lt_S, Forall_lt_S.
  - run. intros H. destruct (find _ _); discriminate.
Qed.

Lemma Post_addTags_spec now flt post instances tx w w1 r :
  Post.addTags now flt post instances tx w = (w1, r) ->
  w1 = w /\
  match r with
  | Ok tx1 =>
      fails flt AtAddTags = false /\
      pk_violation (postTags (db w) ++ tx_postTags tx)
        (through_rows now (postTags (db w) ++ tx_postTags tx) (p_id post) instances) = false /\
      tx1 = mkTxn (tx_posts tx)
              (tx_postTags tx ++
               through_rows now (postTags (db w) ++ tx_postTags tx) (p_id post) instances)
  | Err _ => True
  end.
Proof.
  unfold Post.addTags. destruct (fails flt AtAddTags); run.
  - intros H; inv_pair H. auto.
  - destruct (pk_violation _ _); intros H; inv_pair H; auto.
Qed.

(** What a run of [createPost] amounts to: either the answer is 400 and
    the rows of users, profiles, posts and of the join table are what they
    were, or the answer is 201 and the post and its join rows have been
    added to what the tag stage left. *)
Lemma createPost_outcome now flt body w w' r :
  createPost now flt body w = (w', r) ->
  (code r = 400 /\ (exists e, json r = JError e) /\ rows_kept w w' /\ (Inv w -> Inv w'))
  \/
  (exists uid u s w1 w2 instances,
      let post := mkPost (posts_id_seq (seqs w)) (column (b_title body))
                    (column (b_content body)) uid (Some s) now now in
      b_userId body = Some uid /\
      find_user (Some uid) w = Some u /\
      fails flt AtHookLookup = false /\
      Post.validate (column (b_title body)) (column (b_content body)) = [] /\
      status_of_string (or_else (b_status body) "draft") = Some s /\
      db w1 = db w /\
      posts_id_seq (seqs w1) = S (posts_id_seq (seqs w)) /\
      users_id_seq (seqs w1) = users_id_seq (seqs w) /\
      tags_id_seq (seqs w1) = tags_id_seq (seqs w) /\
      tag_stage now flt body (p_id post) w1 w2 instances /\
      tags_grew w1 w2 /\
      r = mkResponse 201 (JPost post) /\
      w' = mkWorld
             (mkTables (users (db w2)) (profiles (db w2)) (posts (db w2) ++ [post])
                (tags (db w2))
                (postTags (db w2) ++
                 through_rows now (postTags (db w2)) (p_id post) instances))
             (seqs w2) (console w2)).
Proof.
  assert (failed : forall e w1,
             rows_kept w w1 -> (Inv w -> Inv w1) ->
             (code (mkResponse 400 (JError e)) = 400 /\
              (exists e', json (mkResponse 400 (JError e)) = JError e') /\
              rows_kept w w1 /\ (Inv w -> Inv w1))).
  { intros e w1 Hk Hi. cbn. split; [reflexivity|]. split; [now exists e|]. now split. }
  unfold createPost, try_catch. unfold bind at 1.
  destruct (fails flt AtUserLookup); unfold query at 1.
  { unfold throw, rollback, ret, respond. intros H; inv_pair H. left.
    apply failed; auto using rows_kept_same_db. }
  unfold User.findByPk at 1.
  destruct (b_userId body) as [uid|] eqn:Eu;
    [|unfold throw, rollback, ret, respond; intros H; inv_pair H; left;
      apply failed; auto using rows_kept_same_db].
  destruct (find (fun u => u_id u =? uid) (users (db w))) as [u|] eqn:Ef;
    [|unfold throw, rollback, ret, respond; intros H; inv_pair H; left;
      apply failed; auto using rows_kept_same_db].
  unfold bind at 1.
  destruct (Post.create now flt (b_title body) (b_content body) uid
              (or_else (b_status body) "draft") sequelize_transaction w)
    as [w1 [[tx post]|e]] eqn:Ec.
  2:{ apply Post_create_Err in Ec. destruct Ec as [Ed Ei].
      unfold rollback, ret, respond. intros H; inv_pair H. left.
      apply failed; auto using rows_kept_same_db. }
  apply Post_create_Ok in Ec.
  destruct Ec as (s & Hv & Hs & Hfi & Hfh & Hpost & Htx & Hd & Hsp & Hsu & Hst).
  cbn [tx_posts tx_postTags sequelize_transaction app] in Htx.
  assert (Inv1 : Inv w -> Inv w1).
  { intros I. destruct I. constructor; rewrite ?Hd, ?Hsp, ?Hsu, ?Hst;
      auto using posts_lt_S, Forall_lt_S. }
  unfold bind at 1.
  destruct (b_tags body) as [[|n rest]|] eqn:Et.
  - (* tags = [] *)
    unfold ret at 1. run. intros H; inv_pair H. right.
    exists uid, u, s, w1, w1, []. cbn zeta.
    unfold tag_stage, find_user. rewrite Et. subst post tx. cbn.
    unfold set_postTags, set_posts. cbn. rewrite app_nil_r.
    splits; auto using tags_grew_refl.
  - (* tags = n :: rest *)
    unfold bind at 1.
    destruct (Promise_all_findOrCreate now flt 0 (n :: rest) w1) as [w2 [xs|e]] eqn:Ep.
    2:{ unfold rollback, ret, respond. intros H; inv_pair H. left.
        apply failed.
        - eapply rows_kept_trans; [apply rows_kept_same_db; eassumption|].
          apply tags_grew_rows_kept. eapply Promise_all_grew; eassumption.
        - intros I. eapply preserves_Promise_all; eauto. }
    pose proof (Promise_all_grew _ _ _ _ _ _ _ Ep) as Hg.
    destruct (Post.addTags now flt post (map fst xs) tx w2) as [w3 [tx3|e]] eqn:Ea;
      apply Post_addTags_spec in Ea; destruct Ea as [-> Ea].
    2:{ unfold rollback, ret, respond. intros H; inv_pair H. left.
        apply failed.
        - eapply rows_kept_trans; [apply rows_kept_same_db; eassumption|].
          now apply tags_grew_rows_kept.
        - intros I. eapply preserves_Promise_all; eauto. }
    destruct Ea as (Hfa & Hpk & ->). subst tx. cbn [tx_posts tx_postTags] in *.
    rewrite app_nil_r in Hpk. rewrite app_nil_r.
    run. intros H; inv_pair H. right.
    exists uid, u, s, w1, w2, (map fst xs). cbn zeta.
    unfold tag_stage, find_user. rewrite Et. subst post. cbn [p_id] in *.
    splits; auto. exists xs. splits; auto.
  - (* tags missing *)
    unfold ret at 1. run. intros H; inv_pair H. right.
    exists uid, u, s, w1, w1, []. cbn zeta.
    unfold tag_stage, find_user. rewrite Et. subst post tx. cbn.
    unfold set_postTags, set_posts. cbn. rewrite app_nil_r.
    splits; auto using tags_grew_refl.
Qed.

Lemma validate_filled ti co :
  Post.validate ti co = [] -> ti <> None /\ co <> None.
Proof.
  unfold Post.validate, required. destruct ti, co; cbn; try discriminate.
  split; discriminate.
Qed.

Lemma tag_stage_Inv now flt body pid w1 w2 instances :
  tag_stage now flt body pid w1 w2 instances -> Inv w1 -> Inv w2.
Proof.
  unfold tag_stage. destruct (b_tags body) as [[|n rest]|].
  - now intros [-> _].
  - intros (xs & Hp & _) I. eapply preserves_Promise_all; eassumption.
  - now intros [-> _].
Qed.

Lemma createPost_Inv now flt body w w' r :
  createPost now flt body w = (w', r) -> Inv w -> Inv w'.
Proof.
  intros H I. apply createPost_outcome in H.
  destruct H as [(_ & _ & _ & Hi) | H]; [auto|].
  destruct H as (uid & u & s & w1 & w2 & instances & H). cbn zeta in H.
  destruct H as (_ & _ & _ & Hv & _ & Hd & Hsp & Hsu & Hst & Hts & Hg & _ & ->).
  assert (I1 : Inv w1).
  { destruct I. constructor; rewrite ?Hd, ?Hsp, ?Hsu, ?Hst;
      auto using posts_lt_S, Forall_lt_S. }
  pose proof (tag_stage_Inv _ _ _ _ _ _ _ Hts I1) as I2.
  destruct Hg as (_ & _ & _ & _ & _ & _ & _ & Hsp2 & _).
  apply validate_filled in Hv.
  pose proof (through_rows_postId now (postTags (db w2)) (posts_id_seq (seqs w)) instances)
    as HT.
  destruct I2. constructor; cbn [db seqs users posts tags postTags p_id]; auto.
  - apply Forall_snoc; [assumption|]. cbn. rewrite Hsp2, Hsp. split; [lia | assumption].
  - apply Forall_app. split; [assumption|].
    eapply Forall_impl; [|exact HT]. cbn. intros a ->. rewrite Hsp2, Hsp. lia.
Qed.

(** Every controller keeps the invariant. *)
Lemma handle_Inv now r w : Inv w -> Inv (fst (handle isEmail builtin now r w)).
Proof.
  intros I. destruct (handle isEmail builtin now r w) as [w' resp] eqn:H.
  cbn [fst]. revert H.
  assert (tc : forall (body : M Response) (c : nat),
             preserves body ->
             try_catch body (fun error => respond c (JError error)) w = (w', resp) ->
             Inv w').
  { intros body c Hb. unfold try_catch, respond.
    destruct (body w) as [w1 [x|e]] eqn:E; intros H; inv_pair H; eapply Hb; eauto. }
  destruct r; cbn [handle].
  - apply tc. apply preserves_bind; [apply preserves_User_create|].
    intros; apply preserves_ret.
  - apply tc. apply preserves_bind; [apply preserves_User_update|].
    intros a. destruct (0 <? a); [|apply preserves_ret].
    apply preserves_bind; [apply preserves_User_findByPk|]. intros; apply preserves_ret.
  - apply tc. apply preserves_bind; [apply preserves_User_destroy|].
    intros a. destruct (0 <? a); apply preserves_ret.
  - apply tc. apply preserves_bind; [apply preserves_User_findByPk|].
    intros [u|]; [|apply preserves_ret]. destruct uid; [|apply preserves_ret].
    apply preserves_bind; [apply preserves_Profile_create|]. intros; apply preserves_ret.
  - apply tc. apply preserves_bind; [apply preserves_Profile_update|].
    intros a. destruct (0 <? a); [|apply preserves_ret].
    apply preserves_bind; [apply preserves_Profile_findOne|]. intros; apply preserves_ret.
  - apply tc. apply preserves_bind; [apply preserves_Profile_destroy|].
    intros a. destruct (0 <? a); apply preserves_ret.
  - intros H. eapply createPost_Inv; eassumption.
  - unfold getAllPosts. apply tc.
    apply preserves_bind; [apply preserves_lift|]. intros sc.
    apply preserves_bind.
    + unfold Post.findAndCountAll. apply preserves_bind.
      * intros v v' x E J. run. now inv_pair E.
      * intros t. destruct (_ || _)%bool; [apply preserves_throw | apply preserves_ret].
    + intros [c rows]. apply preserves_ret.
  - apply tc. apply preserves_bind.
    + intros v v' x E J. unfold Post.findByPk_include in E. now inv_pair E.
    + intros [v|]; apply preserves_ret.
  - apply tc. destruct (title_too_short ti); [apply preserves_throw|].
    apply preserves_bind; [apply preserves_Post_update|].
    intros a. destruct (0 <? a); [|apply preserves_ret].
    apply preserves_bind; [apply preserves_Post_findByPk|]. intros; apply preserves_ret.
  - apply tc. apply preserves_bind; [apply preserves_Post_destroy|].
    intros a. destruct (0 <? a); apply preserves_ret.
  - apply tc. apply preserves_bind; [apply preserves_Tag_create|].
    intros; apply preserves_ret.
  - apply tc. apply preserves_bind; [apply preserves_Tag_update|].
    intros a. destruct (0 <? a); [|apply preserves_ret].
    apply preserves_bind; [apply preserves_Tag_findByPk|]. intros; apply preserves_ret.
  - apply tc. apply preserves_bind; [apply preserves_Tag_destroy|].
    intros a. destruct (0 <? a); apply preserves_ret.
  - unfold addTagToPost, try_catch, respond, bind, Post.findByPk, Tag.findByPk.
    destruct (find _ (posts (db w))) as [p|] eqn:Ep; destruct tid as [i|];
      try (unfold ret; intros H; now inv_pair H);
      destruct (find _ (tags (db w))) as [g|];
      try (unfold ret; intros H; now inv_pair H).
    apply find_In in Ep. destruct Ep as [Hin _].
    destruct (Post.addTag now p g w) as [w1 [[]|e]] eqn:E; unfold ret;
      intros H; inv_pair H; eapply preserves_Post_addTag; eassumption.
  - apply tc. apply preserves_bind; [apply preserves_Post_findByPk|]. intros [p|].
    + apply preserves_bind; [apply preserves_Tag_findByPk|]. intros [g|].
      * apply preserves_bind; [apply preserves_Post_removeTag|]. intros; apply preserves_ret.
      * apply preserves_ret.
    + apply preserves_bind; [apply preserves_Tag_findByPk|]. intros [g|];
        apply preserves_ret.
Qed.

Lemma Inv_initial : Inv initial.
Proof. constructor; cbn; constructor. Qed.

Lemma reachable_Inv w : reachable isEmail builtin w -> Inv w.
Proof.
  induction 1 as [|w now r _ IH]; [apply Inv_initial | now apply handle_Inv].
Qed.

(** *** Reading back what [createPost] wrote *)

Lemma Tag_create_Ok now n w w' g :
  Tag.create now n w = (w', Ok g) -> n = Str (name g) /\ In g (tags (db w')).
Proof.
  unfold Tag.create. destruct n as [| |s]; run; try discriminate.
  intros H. injection H as <- <-. cbn. split; [reflexivity|].
  apply in_or_app. right. now left.
Qed.

Lemma Tag_findOrCreate_Ok now b n w w' x :
  Tag.findOrCreate now b n w = (w', Ok x) ->
  n = Some (name (fst x)) /\ In (fst x) (tags (db w')).
Proof.
  unfold Tag.findOrCreate, query. destruct b; [unfold throw; discriminate|].
  unfold bind at 1. unfold get_db at 1. destruct n as [s|].
  - destruct (find _ _) as [g|] eqn:F.
    + unfold ret. intros H. injection H as <- <-. cbn.
      apply find_In in F. destruct F as [Hin Hn]. apply String.eqb_eq in Hn.
      split; [congruence | assumption].
    + unfold bind. destruct (Tag.create now (Str s) w) as [w1 [g|e]] eqn:E;
        unfold ret; [|discriminate].
      intros H. injection H as <- <-. cbn. apply Tag_create_Ok in E.
      destruct E as [E Hin]. split; [congruence | assumption].
  - unfold bind. destruct (Tag.create now Null w) as [w1 [g|e]] eqn:E;
      unfold ret; [|discriminate].
    apply Tag_create_Ok in E. destruct E as [E _]. discriminate.
Qed.

Lemma tags_grew_In w w' g : tags_grew w w' -> In g (tags (db w)) -> In g (tags (db w')).
Proof.
  intros (_ & _ & _ & _ & [x Hx] & _) Hin. rewrite Hx. apply in_or_app. now left.
Qed.

Lemma Promise_all_Ok now flt names :
  forall i w w' xs,
    Promise_all_findOrCreate now flt i names w = (w', Ok xs) ->
    Forall2 (fun x n => n = Some (name (fst x)) /\ In (fst x) (tags (db w'))) xs names.
Proof.
  induction names as [|n rest IH]; intros i w w' xs; cbn [Promise_all_findOrCreate].
  - unfold ret. intros H. injection H as <- <-. constructor.
  - destruct (Tag.findOrCreate now (fails flt (AtFindOrCreate i)) n w) as [w1 r1] eqn:E1.
    destruct (Promise_all_findOrCreate now flt (S i) rest w1) as [w2 r2] eqn:E2.
    destruct r1 as [x|e]; [|discriminate]. destruct r2 as [ys|e]; [|discriminate].
    intros H. injection H as <- <-.
    apply Tag_findOrCreate_Ok in E1. destruct E1 as [En Hin].
    constructor; [|eapply IH; eassumption].
    split; [assumption|].
    eapply tags_grew_In; [eapply Promise_all_grew|]; eassumption.
Qed.

Lemma find_app_last {A} (f : A -> bool) (l : list A) (y : A) :
  Forall (fun x => f x = false) l -> f y = true -> find f (l ++ [y]) = Some y.
Proof.
  induction 1 as [|x l Hx _ IH]; cbn; intros Hy.
  - now rewrite Hy.
  - rewrite Hx. now apply IH.
Qed.

Lemma filter_key_unique (l : list TagRow) (g : TagRow) :
  NoDup (map t_id l) -> In g l -> filter (fun x => t_id x =? t_id g) l = [g].
Proof.
  induction l as [|x l IH]; cbn; intros Hn Hin; [contradiction|].
  inversion Hn as [|? ? Hx Hl]; subst.
  destruct Hin as [-> | Hin].
  - rewrite Nat.eqb_refl. f_equal.
    destruct (filter _ l) as [|y ys] eqn:F; [reflexivity|].
    exfalso. assert (Hy : In y (filter (fun x => t_id x =? t_id g) l))
      by (rewrite F; now left).
    apply filter_In in Hy. destruct Hy as [Hy E]. apply Nat.eqb_eq in E.
    apply Hx. apply in_map_iff. exists y. split; assumption.
  - destruct (t_id x =? t_id g) eqn:E; [|now apply IH].
    apply Nat.eqb_eq in E. exfalso. apply Hx.
    apply in_map_iff. exists g. split; [congruence | assumption].
Qed.

Lemma linked_fresh {rows : list PostTagRow} {pid : nat} (tid : nat) :
  Forall (fun r => postId r < pid) rows -> linked rows pid tid = false.
Proof.
  unfold linked. induction 1 as [|r rows Hr _ IH]; cbn; [reflexivity|].
  rewrite IH. replace (postId r =? pid) with false; [reflexivity|].
  symmetry. apply Nat.eqb_neq. lia.
Qed.

Lemma through_rows_fresh now (rows : list PostTagRow) (pid : nat) (gs : list TagRow) :
  Forall (fun r => postId r < pid) rows ->
  through_rows now rows pid gs = map (fun g => mkPostTag pid (t_id g) now now) gs.
Proof.
  intros H. unfold through_rows. f_equal.
  induction gs as [|g gs IH]; cbn; [reflexivity|].
  now rewrite (linked_fresh (t_id g) H), IH.
Qed.

Lemma tags_of_fresh (t : Tables) (p : PostRow) now (old : list PostTagRow)
  (gs : list TagRow) :
  postTags t = old ++ map (fun g => mkPostTag (p_id p) (t_id g) now now) gs ->
  Forall (fun r => postId r < p_id p) old ->
  NoDup (map t_id (tags t)) ->
  Forall (fun g => In g (tags t)) gs ->
  tags_of t p = gs.
Proof.
  intros Hpt Hold Hn Hgs. unfold tags_of. rewrite Hpt, flat_map_app. clear Hpt.
  replace (flat_map _ old) with (@nil TagRow).
  - cbn. induction Hgs as [|g gs Hg _ IH]; cbn; [reflexivity|].
    rewrite Nat.eqb_refl, (filter_key_unique _ _ Hn Hg). cbn. now rewrite IH.
  - symmetry. induction Hold as [|r old Hr _ IH]; cbn; [reflexivity|].
    replace (postId r =? p_id p) with false; [exact IH|].
    symmetry. apply Nat.eqb_neq. lia.
Qed.

(** After a successful [createPost] from a state that satisfies the
    invariant, the post read by its id carries the tag instances of the
    request, one for each name and in the order of the names. *)
Lemma createPost_read_back now flt body w w' post :
  Inv w ->
  createPost now flt body w = (w', mkResponse 201 (JPost post)) ->
  exists v,
    getPostById (p_id post) w' = (w', mkResponse 200 (JPostFull v)) /\
    pv_post v = post /\
    match b_tags body with
    | Some (n :: rest) => map (fun g => Some (name g)) (pv_Tags v) = n :: rest
    | _ => pv_Tags v = []
    end.
Proof.
  intros I H. apply createPost_outcome in H.
  destruct H as [(Hc & _) | H]; [discriminate|].
  destruct H as (uid & u & s & w1 & w2 & instances & H). cbn zeta in H.
  destruct H as (_ & _ & _ & Hv & _ & Hd & Hsp & Hsu & Hst & Hts & Hg & Hr & ->).
  injection Hr as ->. cbn [p_id] in *.
  assert (I1 : Inv w1).
  { destruct I. constructor; rewrite ?Hd, ?Hsp, ?Hsu, ?Hst;
      auto using posts_lt_S, Forall_lt_S. }
  pose proof (tag_stage_Inv _ _ _ _ _ _ _ Hts I1) as I2.
  destruct Hg as (_ & _ & Hposts & Hlinks & _).
  rewrite Hd in Hposts, Hlinks.
  set (i := posts_id_seq (seqs w)) in *.
  set (post := mkPost i (column (b_title body)) (column (b_content body)) uid
                 (Some s) now now) in *.
  assert (Hold : Forall (fun r => postId r < i) (postTags (db w2))).
  { rewrite Hlinks. now destruct I. }
  assert (Hps : Forall (fun x => (p_id x =? i) = false) (posts (db w2))).
  { rewrite Hposts. destruct I as [_ _ _ Hp _ _ _]. revert Hp. apply Forall_impl.
    intros a (Ha & _). apply Nat.eqb_neq. fold i in Ha. lia. }
  assert (Hin : Forall (fun g => In g (tags (db w2))) instances /\
                match b_tags body with
                | Some (n :: rest) => map (fun g => Some (name g)) instances = n :: rest
                | _ => instances = []
                end).
  { unfold tag_stage in Hts. destruct (b_tags body) as [[|n rest]|].
    - destruct Hts as [_ ->]. split; [constructor | reflexivity].
    - destruct Hts as (xs & Hp & -> & _). apply Promise_all_Ok in Hp.
      clear - Hp. induction Hp as [|x m xs ms [Hx Hi] _ [IH1 IH2]]; cbn.
      + split; [constructor | reflexivity].
      + split; [constructor; assumption | congruence].
    - destruct Hts as [_ ->]. split; [constructor | reflexivity]. }
  destruct Hin as [Hin Hnames].
  rewrite (through_rows_fresh now (postTags (db w2)) i instances Hold).
  eexists. split; [|split].
  - unfold getPostById, try_catch, bind, Post.findByPk_include, ret. cbn [db posts].
    rewrite (find_app_last (fun x => p_id x =? i) _ post Hps (Nat.eqb_refl i)).
    cbn [option_map]. reflexivity.
  - reflexivity.
  - cbn [pv_Tags view].
    match goal with
    | |- context [tags_of ?t post] =>
        assert (Htags : tags_of t post = instances)
    end.
    { apply tags_of_fresh with (now := now) (old := postTags (db w2));
        cbn [postTags tags p_id post]; auto. now destruct I2. }
    rewrite Htags. exact Hnames.
Qed.

(** Whatever makes [createPost] answer 400, the rollback leaves the rows
    of users, profiles, posts and of the join table as they were, and no
    tag row that was there before is lost. *)
Lemma createPost_failure_keeps_rows now flt body w w' r :
  createPost now flt body w = (w', r) -> code r = 400 -> rows_kept w w'.
Proof.
  intros H Hc. apply createPost_outcome in H.
  destruct H as [(_ & _ & Hk & _) | H]; [assumption|].
  destruct H as (uid & u & s & w1 & w2 & instances & H). cbn zeta in H.
  destruct H as (_ & _ & _ & _ & _ & _ & _ & _ & _ & _ & _ & -> & _).
  discriminate.
Qed.

(** The hook tolerates a post whose user it does not find: nothing is
    logged and nothing is thrown. *)
Lemma afterCreate_without_user post w :
  find_user (Some (userId post)) w = None ->
  Post.afterCreate None post w = (w, Ok tt).
Proof.
  unfold find_user, Post.afterCreate, bind, query, User.findByPk. cbn [fails].
  now intros ->.
Qed.

(** ** Listing posts *)

Lemma In_insert_desc p q l : In q (Post.insert_desc p l) <-> q = p \/ In q l.
Proof.
  induction l as [|x l IH]; cbn.
  - intuition congruence.
  - destruct (createdAt x <=? createdAt p); cbn; [intuition congruence|].
    rewrite IH. intuition congruence.
Qed.

Lemma In_order_desc q l : In q (Post.order_desc l) <-> In q l.
Proof.
  unfold Post.order_desc. induction l as [|x l IH]; cbn; [tauto|].
  rewrite In_insert_desc, IH. intuition congruence.
Qed.

Lemma length_insert_desc p l : List.length (Post.insert_desc p l) = S (List.length l).
Proof.
  induction l as [|x l IH]; cbn; [reflexivity|].
  destruct (createdAt x <=? createdAt p); cbn; [reflexivity | now rewrite IH].
Qed.

Lemma length_order_desc l : List.length (Post.order_desc l) = List.length l.
Proof.
  unfold Post.order_desc. induction l as [|x l IH]; cbn; [reflexivity|].
  now rewrite length_insert_desc, IH.
Qed.

(** A page is cut out of the list it pages. *)
Lemma In_page {A} (limit offset : nat) (l : list A) (x : A) :
  In x (firstn limit (skipn offset l)) -> In x l.
Proof.
  intros H.
  rewrite <- (firstn_skipn offset l). apply in_or_app. right.
  rewrite <- (firstn_skipn limit (skipn offset l)). apply in_or_app. now left.
Qed.


Lemma where_Some st p : Post.where_ (Some st) p = true -> status p = Some st.
Proof.
  unfold Post.where_. destruct (status p) as [[]|], st; cbn; congruence.
Qed.

(** ** Titles on update *)

(** A title of one to four characters stops [updatePost] before it
    reaches the storage. *)
Lemma updatePost_short_title now id s co st w :
  s <> EmptyString -> String.length s < 5 ->
  updatePost now id (Str s) co st w =
    (w, mkResponse 400 (JError (JsError "Title must be at least 5 characters long."))).
Proof.
  intros Hs Hl. unfold updatePost, title_too_short, truthy.
  apply String.eqb_neq in Hs. apply Nat.ltb_lt in Hl. rewrite Hs, Hl. reflexivity.
Qed.

Lemma serve_reachable events :
  forall w, reachable isEmail builtin w ->
            reachable isEmail builtin (serve isEmail builtin events w).
Proof.
  induction events as [|[now r] rest IH]; intros w Hw; cbn [serve]; [assumption|].
  apply IH. now apply reachable_step.
Qed.

(** *** The order and the size of a page *)

Lemma insert_desc_Sorted p l :
  Sorted later_first l -> Sorted later_first (Post.insert_desc p l).
Proof.
  induction l as [|x l IH]; cbn; intros Hs.
  - repeat constructor.
  - destruct (createdAt x <=? createdAt p) eqn:E.
    + apply Nat.leb_le in E. constructor; [assumption|]. now constructor.
    + apply Nat.leb_gt in E. apply Sorted_inv in Hs. destruct Hs as [Hs Hh].
      constructor; [now apply IH|].
      destruct l as [|y l]; cbn.
      * constructor. unfold later_first. lia.
      * apply HdRel_inv in Hh.
        destruct (createdAt y <=? createdAt p); constructor;
          unfold later_first in *; lia.
Qed.

Lemma order_desc_Sorted l : Sorted later_first (Post.order_desc l).
Proof.
  unfold Post.order_desc. induction l as [|x l IH]; cbn; [constructor|].
  now apply insert_desc_Sorted.
Qed.

Lemma Sorted_skipn {A} (R : A -> A -> Prop) (n : nat) :
  forall l, Sorted R l -> Sorted R (skipn n l).
Proof.
  induction n as [|n IH]; intros [|x l] Hs; cbn; auto.
  apply IH. now apply Sorted_inv in Hs.
Qed.

Lemma Sorted_firstn {A} (R : A -> A -> Prop) (n : nat) :
  forall l, Sorted R l -> Sorted R (firstn n l).
Proof.
  induction n as [|n IH]; intros [|x l] Hs; cbn; auto.
  apply Sorted_inv in Hs. destruct Hs as [Hs Hh].
  constructor; [now apply IH|].
  destruct n, l; cbn; constructor. now apply HdRel_inv in Hh.
Qed.

Lemma Sorted_view t l :
  Sorted later_first l -> newest_first (map (view t) l).
Proof.
  unfold newest_first. induction 1 as [|x l _ IH Hh]; cbn; constructor; [assumption|].
  destruct Hh; cbn; constructor. assumption.
Qed.

Lemma list_sum_ones {A} (f : A -> nat) (l : list A) :
  Forall (fun x => f x = 1) l -> list_sum (map f l) = List.length l.
Proof.
  induction 1 as [|x l Hx _ IH]; [reflexivity|].
  change (f x + list_sum (map f l) = S (List.length l)). now rewrite Hx, IH.
Qed.

(** The second page of size two over five active posts, when no post of
    the scope is joined to more than one row of the included tables: two
    rows, newest first, three pages in all. *)
Lemma getAllPosts_second_page_of_five w :
  let found := filter (Post.where_ (Some active)) (posts (db w)) in
  List.length found = 5 ->
  Forall (fun p => Post.joined_rows (db w) p = 1) found ->
  exists rows,
    getAllPosts builtin (mkQuery (Some 2%Z) (Some 2%Z) (Some "active"%string)) w =
      (w, mkResponse 200 (JPage rows (Some 3%Z) 2%Z)) /\
    List.length rows = 2 /\
    newest_first rows /\
    Forall (fun v => status (pv_post v) = Some active) rows.
Proof.
  intros found Hlen Hone.
  exists (map (view (db w)) (firstn 2 (skipn 2 (Post.order_desc found)))).
  splits.
  - unfold getAllPosts, try_catch, bind, lift, Post.findAndCountAll, get_db, ret.
    cbn [default q_page q_limit q_status Post.scope]. cbn -[filter Post.order_desc].
    fold found. rewrite (list_sum_ones _ _ Hone), Hlen. reflexivity.
  - rewrite length_map, length_firstn, length_skipn, length_order_desc, Hlen.
    reflexivity.
  - apply Sorted_view, Sorted_firstn, Sorted_skipn, order_desc_Sorted.
  - apply Forall_map. apply Forall_forall. intros p Hp. cbn [pv_post view].
    apply In_page, In_order_desc, filter_In in Hp.
    now apply where_Some.
Qed.

(** ** The claims *)

(** C5. An account creation whose email is the email of a stored account
    is refused with a validation error (the unique-constraint error of
    the ORM, answered with status 400) and leaves every table as it was;
    in every reachable state the emails of the stored accounts are
    pairwise distinct. *)
Theorem duplicate_email_rejected w :
  reachable isEmail builtin w ->
  NoDup (map email (users (db w))) /\
  forall now fn ln e,
    In e (map email (users (db w))) ->
    exists w' err,
      createUser isEmail now fn ln (Str e) w = (w', mkResponse 400 (JError err)) /\
      is_ValidationError err = true /\
      db w' = db w.
Proof.
  intros Hr. split; [apply reachable_Inv in Hr; now destruct Hr|].
  intros now fn ln e Hin.
  assert (Hex : existsb (fun u => String.eqb (email u) e) (users (db w)) = true).
  { apply in_map_iff in Hin. destruct Hin as [u [Hu Hin]].
    apply existsb_exists. exists u. split; [assumption|]. now apply String.eqb_eq. }
  unfold createUser, try_catch, User.create.
  destruct (User.validate isEmail fn ln (Str e)) as [|v vs];
    [|run; eexists; eexists; splits; reflexivity].
  destruct fn; try (run; eexists; eexists; splits; reflexivity).
  destruct ln; try (run; eexists; eexists; splits; reflexivity).
  run. rewrite Hex. eexists; eexists; splits; reflexivity.
Qed.


(** C8. After a successful [createPost] with the tag names a and b, made
    in a reachable state, [getPostById] on the id of the created post
    answers 200 with that post and with tags whose names are exactly a
    and b. *)
Theorem createPost_tags_round_trip w now flt body w' post :
  reachable isEmail builtin w ->
  b_tags body = Some [Some "a"; Some "b"]%string ->
  createPost now flt body w = (w', mkResponse 201 (JPost post)) ->
  exists v,
    getPostById (p_id post) w' = (w', mkResponse 200 (JPostFull v)) /\
    pv_post v = post /\
    Permutation (map name (pv_Tags v)) ["a"; "b"]%string.
Proof.
  intros Hr Ht Hc. apply reachable_Inv in Hr.
  destruct (createPost_read_back _ _ _ _ _ _ Hr Hc) as (v & Hg & Hp & Hn).
  exists v. splits; [assumption | assumption |].
  rewrite Ht in Hn.
  destruct (pv_Tags v) as [|g1 [|g2 [|g3 gs]]]; try discriminate.
  cbn in Hn. injection Hn as E1 E2. cbn. rewrite E1, E2. apply Permutation_refl.
Qed.

(** C2 (as amended). When a post has been inserted by [createPost] (the
    user exists, the validation passes and the status is one of the
    enumeration) and the lookup of the [afterCreate] hook fails, the
    failure leaves [Post.create]: the transaction is rolled back, so that
    every table is as it was before the request, the caller receives
    status 400 with the error of the hook, and nothing is logged. *)
Theorem afterCreate_failure_rolls_back now body w uid u s :
  b_userId body = Some uid ->
  find_user (Some uid) w = Some u ->
  Post.validate (column (b_title body)) (column (b_content body)) = [] ->
  status_of_string (or_else (b_status body) "draft") = Some s ->
  exists w',
    createPost now (Some AtHookLookup) body w =
      (w', mkResponse 400 (JError storage_failure)) /\
    db w' = db w /\
    console w' = console w.
Proof.
  unfold find_user. intros Hu Hf Hv Hs.
  unfold createPost, try_catch, bind, query, User.findByPk, Post.create,
    Post.afterCreate, rollback, respond, ret, throw, nextval_posts.
  cbn [fails step_eqb]. rewrite Hu, Hf, Hv, Hs. cbn.
  eexists. splits; reflexivity.
Qed.


(** C9 (as amended). In every reachable state every stored post has a
    title and a content that are present (not null): no create and no
    update stores a post without one of them.  The empty string is a
    present value and is not ruled out. *)
Theorem posts_have_title_and_content w :
  reachable isEmail builtin w ->
  Forall (fun p => title p <> None /\ content p <> None) (posts (db w)).
Proof.
  intros Hr. apply reachable_Inv in Hr. destruct Hr as [_ _ _ Hp _ _ _].
  revert Hp. apply Forall_impl. tauto.
Qed.

(** C10 (as amended). A scope name that is none of active, draft and
    archived, that is not empty, is not defaultScope and is not a property
    every object inherits makes the read fail with the scope error of the
    ORM, reported with status 500, and nothing is read; the empty name and
    defaultScope select the model without filter. *)
Theorem unknown_scope_rejected page limit sname w :
  sname <> "active"%string -> sname <> "draft"%string -> sname <> "archived"%string ->
  sname <> EmptyString -> sname <> "defaultScope"%string ->
  ~ In sname Post.Object_prototype_keys ->
  getAllPosts builtin (mkQuery page limit (Some sname)) w =
    (w, mkResponse 500 (JError (ScopeError sname))) /\
  Post.scope builtin EmptyString = Ok None /\
  Post.scope builtin "defaultScope" = Ok None.
Proof.
  intros Ha Hd Hr He Hs Hi. split; [|split; reflexivity].
  assert (Hscope : Post.scope builtin sname = Err (ScopeError sname)).
  { unfold Post.scope, truthy. apply String.eqb_neq in He, Hs. rewrite He, Hs.
    cbn [negb Post.own_scope Post.scopes].
    replace (String.eqb "active" sname) with false
      by (symmetry; apply String.eqb_neq; congruence).
    replace (String.eqb "archived" sname) with false
      by (symmetry; apply String.eqb_neq; congruence).
    replace (String.eqb "draft" sname) with false
      by (symmetry; apply String.eqb_neq; congruence).
    replace (Post.inherited sname) with false; [reflexivity|].
    symmetry. unfold Post.inherited.
    destruct (existsb _ _) eqn:X; [|reflexivity].
    apply existsb_exists in X. destruct X as [k [Hk E]].
    apply String.eqb_eq in E. subst k. contradiction. }
  unfold getAllPosts, try_catch, bind, lift.
  cbn [default q_page q_limit q_status]. now rewrite Hscope.
Qed.

End Properties.

(** ** The claims on sample data *)

Lemma alice_world_reachable : reachable has_at no_builtin alice_world.
Proof. apply serve_reachable, reachable_initial. Qed.

Lemma two_posts_world_reachable : reachable has_at no_builtin two_posts_world.
Proof. apply serve_reachable, alice_world_reachable. Qed.

(** C1. The claim fails on the code.  [Tag.findOrCreate] is called
    without the transaction, so the tags it creates are committed on their
    own and outlive the rollback: after a [createPost] that fails on the
    null second tag name, on a storage failure at the third tag, or on a
    storage failure while linking, no post and no join row is stored, but
    the tags created by the failed request are. *)
Theorem createPost_rollback_leaves_created_tags :
  tags (db alice_world) = [] /\
  (let out := createPost 5 None null_tag_body alice_world in
   snd out = mkResponse 400 (JError (ValidationError [NotNull "Tag.name"])) /\
   posts (db (fst out)) = [] /\ postTags (db (fst out)) = [] /\
   tags (db (fst out)) = [mkTag 1 "a" 5 5]) /\
  (let out := createPost 5 (Some (AtFindOrCreate 2)) three_tags_body alice_world in
   snd out = mkResponse 400 (JError storage_failure) /\
   posts (db (fst out)) = [] /\ postTags (db (fst out)) = [] /\
   tags (db (fst out)) = [mkTag 1 "a" 5 5; mkTag 2 "b" 5 5]) /\
  (let out := createPost 5 (Some AtAddTags) ab_body alice_world in
   snd out = mkResponse 400 (JError storage_failure) /\
   posts (db (fst out)) = [] /\ postTags (db (fst out)) = [] /\
   tags (db (fst out)) = [mkTag 1 "a" 5 5; mkTag 2 "b" 5 5]).
Proof. vm_compute. repeat split. Qed.

(** C2, counterexample.  The request that is answered 201 when the hook
    works is answered 400 with the error of the hook when the lookup of
    the hook fails, and the post is not stored. *)
Lemma afterCreate_failure_reaches_caller :
  code (snd (createPost 5 None ab_body alice_world)) = 201 /\
  List.length (posts (db (fst (createPost 5 None ab_body alice_world)))) = 1 /\
  snd (createPost 5 (Some AtHookLookup) ab_body alice_world) =
    mkResponse 400 (JError storage_failure) /\
  posts (db (fst (createPost 5 (Some AtHookLookup) ab_body alice_world))) = [].
Proof. vm_compute. repeat split. Qed.

Lemma afterCreate_failure_rolls_back_witness :
  b_userId ab_body = Some 1 /\
  find_user (Some 1) alice_world = Some alice /\
  Post.validate (column (b_title ab_body)) (column (b_content ab_body)) = [] /\
  status_of_string (or_else (b_status ab_body) "draft") = Some draft /\
  exists w',
    createPost 5 (Some AtHookLookup) ab_body alice_world =
      (w', mkResponse 400 (JError storage_failure)) /\
    db w' = db alice_world /\
    console w' = console alice_world.
Proof.
  assert (H1 : b_userId ab_body = Some 1) by reflexivity.
  assert (H2 : find_user (Some 1) alice_world = Some alice) by reflexivity.
  assert (H3 : Post.validate (column (b_title ab_body)) (column (b_content ab_body)) = [])
    by reflexivity.
  assert (H4 : status_of_string (or_else (b_status ab_body) "draft") = Some draft)
    by reflexivity.
  repeat split; try reflexivity.
  exact (afterCreate_failure_rolls_back 5 ab_body alice_world 1 alice draft H1 H2 H3 H4).
Defined.



(** C4. The claim fails on the code.  [findAndCountAll] is called with
    [include: [User, Tag]] and without [distinct: true], so [count] is
    the number of rows of the join and a post with several tags is
    counted once for each: with exactly five active posts, the first of
    which carries three tags, page 2 of size 2 has its two rows, newest
    first, and the page number 2, but [totalPages] is 4 where the claim
    says 3. *)
Theorem getAllPosts_totalPages_counts_joined_rows :
  List.length (filter (Post.where_ (Some active)) (posts (db five_active_world))) = 5 /\
  exists rows,
    getAllPosts no_builtin (mkQuery (Some 2%Z) (Some 2%Z) (Some "active"%string))
      five_active_world =
      (five_active_world, mkResponse 200 (JPage rows (Some 4%Z) 2%Z)) /\
    map (fun v => (p_id (pv_post v), createdAt (pv_post v))) rows = [(3, 30); (2, 20)].
Proof.
  split; [reflexivity|]. eexists. split; vm_compute; reflexivity.
Qed.

Lemma duplicate_email_rejected_witness :
  reachable has_at no_builtin alice_world /\
  NoDup (map email (users (db alice_world))) /\
  exists w' err,
    createUser has_at 2 (Str "Alice") (Str "Again") (Str "alice@example.com") alice_world =
      (w', mkResponse 400 (JError err)) /\
    is_ValidationError err = true /\
    db w' = db alice_world.
Proof.
  pose proof alice_world_reachable as Hr.
  split; [exact Hr|].
  destruct (duplicate_email_rejected has_at no_builtin alice_world Hr) as [Hn Hd].
  split; [exact Hn|].
  apply (Hd 2 (Str "Alice") (Str "Again") "alice@example.com"%string).
  left. reflexivity.
Defined.


(** C7. The claim fails on the code.  The guard [title && title.length < 5]
    lets the empty title through, because the empty string is falsy: the
    update of a stored post with the title of no characters is answered
    200 and the empty title is stored. *)
Theorem updatePost_accepts_empty_title :
  map title (posts (db two_posts_world)) = [Some "Published"; Some "Unfinished"]%string /\
  let out := updatePost 30 1 (Str EmptyString) Undefined Undefined two_posts_world in
  code (snd out) = 200 /\
  map title (posts (db (fst out))) = [Some EmptyString; Some "Unfinished"%string].
Proof. vm_compute. repeat split. Qed.

Lemma createPost_tags_round_trip_witness :
  reachable has_at no_builtin alice_world /\
  b_tags ab_body = Some [Some "a"; Some "b"]%string /\
  exists v,
    getPostById 1 (fst (createPost 5 None ab_body alice_world)) =
      (fst (createPost 5 None ab_body alice_world), mkResponse 200 (JPostFull v)) /\
    pv_post v = mkPost 1 (Some "Hello world"%string) (Some "Some text."%string) 1
                  (Some draft) 5 5 /\
    Permutation (map name (pv_Tags v)) ["a"; "b"]%string.
Proof.
  pose proof alice_world_reachable as Hr.
  split; [exact Hr|]. split; [reflexivity|].
  apply (createPost_tags_round_trip has_at no_builtin alice_world 5 None ab_body
           (fst (createPost 5 None ab_body alice_world))
           (mkPost 1 (Some "Hello world"%string) (Some "Some text."%string) 1
              (Some draft) 5 5)
           Hr eq_refl).
  reflexivity.
Defined.

(** C9, counterexample.  A post whose title and content are the empty
    string is created with status 201 and stored, in a reachable state. *)
Lemma empty_title_is_stored :
  let w := serve has_at no_builtin [(5, POST_posts empty_title_body None)] alice_world in
  reachable has_at no_builtin w /\
  code (snd (createPost 5 None empty_title_body alice_world)) = 201 /\
  map title (posts (db w)) = [Some EmptyString] /\
  map content (posts (db w)) = [Some EmptyString].
Proof.
  split; [|vm_compute; repeat split].
  apply serve_reachable, alice_world_reachable.
Qed.

Lemma posts_have_title_and_content_witness :
  reachable has_at no_builtin two_posts_world /\
  Forall (fun p => title p <> None /\ content p <> None) (posts (db two_posts_world)).
Proof.
  pose proof two_posts_world_reachable as Hr.
  split; [exact Hr|].
  exact (posts_have_title_and_content has_at no_builtin two_posts_world Hr).
Defined.

(** C10, counterexample.  The scope names defaultScope and the empty
    name are none of active, draft and archived, and the read they start
    is not refused: it is answered 200 with the posts of every status, the
    draft post and the active post. *)
Lemma unfiltered_scope_names :
  let all := [Some draft; Some active] in
  (exists rows,
     getAllPosts no_builtin (mkQuery None None (Some "defaultScope"%string))
       two_posts_world =
       (two_posts_world, mkResponse 200 (JPage rows (Some 1%Z) 1%Z)) /\
     map (fun v => status (pv_post v)) rows = all) /\
  (exists rows,
     getAllPosts no_builtin (mkQuery None None (Some EmptyString)) two_posts_world =
       (two_posts_world, mkResponse 200 (JPage rows (Some 1%Z) 1%Z)) /\
     map (fun v => status (pv_post v)) rows = all).
Proof. split; eexists; split; vm_compute; reflexivity. Qed.

Lemma unknown_scope_rejected_witness :
  getAllPosts no_builtin (mkQuery None None (Some "published"%string)) two_posts_world =
    (two_posts_world, mkResponse 500 (JError (ScopeError "published"))) /\
  Post.scope no_builtin EmptyString = Ok None /\
  Post.scope no_builtin "defaultScope" = Ok None.
Proof.
  apply (unknown_scope_rejected no_builtin None None "published" two_posts_world);
    try discriminate.
  intros H. repeat (destruct H as [H | H]; [discriminate|]). exact H.
Defined.

(** * Further properties of the controllers *)

Section Further.

Variable isEmail : string -> bool.
Variable builtin : string -> result (option Status).

(** ** Helpers *)

Ltac splits := repeat match goal with |- _ /\ _ => split end.

Lemma find_found_key {A} (key : A -> nat) (k : nat) (l : list A) (x : A) :
  find (fun y => key y =? k) l = Some x -> key x = k.
Proof.
  intros H. apply find_some in H. destruct H as [_ H]. now apply Nat.eqb_eq.
Qed.

Lemma find_post_id k w p : find_post k w = Some p -> p_id p = k.
Proof. apply find_found_key. Qed.

Lemma find_tag_id k w g : find_tag (Some k) w = Some g -> t_id g = k.
Proof. apply (find_found_key t_id). Qed.

Lemma find_user_id k w u : find_user (Some k) w = Some u -> u_id u = k.
Proof. apply (find_found_key u_id). Qed.




Lemma existsb_same {A} (f g : A -> bool) (l : list A) :
  (forall x, f x = g x) -> existsb f l = existsb g l.
Proof.
  intros H. induction l as [|x l IH]; cbn; [reflexivity|]. now rewrite H, IH.
Qed.

Lemma linked_app rows more pid tid :
  linked (rows ++ more) pid tid = linked rows pid tid || linked more pid tid.
Proof. unfold linked. apply existsb_app. Qed.

Lemma linked_filter_other rows pid tid pid' tid' :
  (pid', tid') <> (pid, tid) ->
  linked (filter (fun r => negb ((postId r =? pid) && (tagId r =? tid))) rows) pid' tid'
  = linked rows pid' tid'.
Proof.
  intros Hne. unfold linked. induction rows as [|r rows IH]; cbn; [reflexivity|].
  destruct ((postId r =? pid) && (tagId r =? tid)) eqn:E; cbn; [|now rewrite IH].
  apply andb_true_iff in E. destruct E as [E1 E2].
  apply Nat.eqb_eq in E1, E2. rewrite IH.
  destruct ((postId r =? pid') && (tagId r =? tid')) eqn:F; [|reflexivity].
  apply andb_true_iff in F. destruct F as [F1 F2].
  apply Nat.eqb_eq in F1, F2. exfalso. apply Hne. congruence.
Qed.

Lemma linked_filter_same rows pid tid :
  linked (filter (fun r => negb ((postId r =? pid) && (tagId r =? tid))) rows) pid tid
  = false.
Proof.
  unfold linked. induction rows as [|r rows IH]; cbn; [reflexivity|].
  destruct ((postId r =? pid) && (tagId r =? tid)) eqn:E; cbn; [exact IH|].
  now rewrite E, IH.
Qed.

(** ** Linking and unlinking tags *)

(** What [post.addTag(tag)] does to the committed join table. *)
Lemma Post_addTag_spec now p g w :
  Post.addTag now p g w =
    (mkWorld (set_postTags
                (postTags (db w) ++
                 if linked (postTags (db w)) (p_id p) (t_id g) then []
                 else [mkPostTag (p_id p) (t_id g) now now])
                (db w)) (seqs w) (console w), Ok tt).
Proof.
  unfold Post.addTag, bind, get_db, put_db, through_rows, pk_violation. cbn [filter map].
  destruct (linked (postTags (db w)) (p_id p) (t_id g)) eqn:L; cbn; [reflexivity|].
  unfold linked in L. unfold same_pair. cbn [postId tagId].
  replace (existsb _ (postTags (db w))) with false; [reflexivity|].
  symmetry. rewrite <- L. apply existsb_same. intros r.
  now rewrite (Nat.eqb_sym (p_id p)), (Nat.eqb_sym (t_id g)).
Qed.

(** X1. [addTagToPost] on a stored post and a stored tag answers 200 and
    leaves the pair linked; the tables of users, profiles, posts and tags
    are as before, and every pair that was linked still is. *)
Theorem addTagToPost_links now pid tid w p g :
  find_post pid w = Some p ->
  find_tag tid w = Some g ->
  exists w',
    addTagToPost now pid tid w =
      (w', mkResponse 200 (JMessage "Tag added to post successfully")) /\
    linked (postTags (db w')) (p_id p) (t_id g) = true /\
    set_postTags (postTags (db w)) (db w') = db w /\
    forall pid' tid',
      linked (postTags (db w)) pid' tid' = true ->
      linked (postTags (db w')) pid' tid' = true.
Proof.
  intros Hp Hg. unfold addTagToPost, try_catch, bind.
  rewrite Post_findByPk_find, Tag_findByPk_find, Hp, Hg, Post_addTag_spec.
  unfold ret. eexists. split; [reflexivity|]. cbn [db postTags set_postTags].
  split; [|split].
  - rewrite linked_app.
    destruct (linked (postTags (db w)) (p_id p) (t_id g)) eqn:L; [reflexivity|].
    unfold linked. cbn. now rewrite !Nat.eqb_refl.
  - unfold set_postTags. cbn. apply tables_eta.
  - intros pid' tid' H. rewrite linked_app, H. reflexivity.
Qed.

(** [addTagToPost] in one equation. *)
Lemma addTagToPost_spec now pid tid w :
  addTagToPost now pid tid w =
    match find_post pid w, find_tag tid w with
    | Some p, Some g =>
        (mkWorld (set_postTags
                    (postTags (db w) ++
                     if linked (postTags (db w)) (p_id p) (t_id g) then []
                     else [mkPostTag (p_id p) (t_id g) now now])
                    (db w)) (seqs w) (console w),
         mkResponse 200 (JMessage "Tag added to post successfully"))
    | _, _ => (w, mkResponse 404 (JMessage "Post or Tag not found"))
    end.
Proof.
  unfold addTagToPost, try_catch, bind.
  rewrite Post_findByPk_find, Tag_findByPk_find.
  destruct (find_post pid w) as [p|]; destruct (find_tag tid w) as [g|];
    try reflexivity.
  now rewrite Post_addTag_spec.
Qed.

(** X2. [addTagToPost] is idempotent: a second call with the same post
    and tag gives the same answer and changes nothing more. *)
Theorem addTagToPost_idempotent now now' pid tid w :
  let first := addTagToPost now pid tid w in
  addTagToPost now' pid tid (fst first) = (fst first, snd first).
Proof.
  cbn zeta. rewrite (addTagToPost_spec now pid tid w).
  destruct (find_post pid w) as [p|] eqn:Hp; destruct (find_tag tid w) as [g|] eqn:Hg;
    cbn [fst snd]; rewrite addTagToPost_spec; rewrite ?Hp, ?Hg; try reflexivity.
  assert (Hp' : forall t, find_post pid (mkWorld (set_postTags t (db w)) (seqs w) (console w))
                          = Some p) by (intros t; exact Hp).
  assert (Hg' : forall t, find_tag tid (mkWorld (set_postTags t (db w)) (seqs w) (console w))
                          = Some g) by (intros t; destruct tid; exact Hg).
  rewrite Hp', Hg'. cbn [db seqs console postTags set_postTags].
  replace (linked (postTags (db w) ++ _) (p_id p) (t_id g)) with true.
  - rewrite app_nil_r. unfold set_postTags. cbn. reflexivity.
  - symmetry. rewrite linked_app.
    destruct (linked (postTags (db w)) (p_id p) (t_id g)); [reflexivity|].
    unfold linked. cbn. now rewrite !Nat.eqb_refl.
Qed.

(** X3. Unlinking right after linking a pair that was not linked gives
    back the world as it was. *)
Theorem addTag_then_removeTag_restores now pid tid w p g :
  find_post pid w = Some p ->
  find_tag tid w = Some g ->
  linked (postTags (db w)) (p_id p) (t_id g) = false ->
  fst (removeTagFromPost pid tid (fst (addTagToPost now pid tid w))) = w.
Proof.
  intros Hp Hg L. unfold addTagToPost, try_catch, bind.
  rewrite Post_findByPk_find, Tag_findByPk_find, Hp, Hg, Post_addTag_spec, L.
  unfold ret. cbn [fst].
  unfold removeTagFromPost, try_catch, bind.
  rewrite Post_findByPk_find, Tag_findByPk_find.
  unfold find_post, find_tag in *. cbn [db posts tags set_postTags]. rewrite Hp.
  destruct tid as [i|]; [|discriminate]. rewrite Hg.
  unfold Post.removeTag, bind, get_db, put_db, ret.
  cbn [fst db seqs console postTags set_postTags posts tags users profiles].
  rewrite filter_app. cbn [filter postId tagId]. rewrite !Nat.eqb_refl. cbn [andb negb].
  rewrite app_nil_r. unfold linked in L. rewrite (filter_none _ _ L).
  unfold set_postTags. cbn. now rewrite tables_eta, world_eta.
Qed.

(** X4. [removeTagFromPost] on a stored post and a stored tag answers 200,
    leaves the pair unlinked and every other pair as it was, and touches
    no other table. *)
Theorem removeTagFromPost_unlinks_one_pair pid tid w p g :
  find_post pid w = Some p ->
  find_tag tid w = Some g ->
  exists w',
    removeTagFromPost pid tid w =
      (w', mkResponse 200 (JMessage "Tag removed from post successfully")) /\
    linked (postTags (db w')) (p_id p) (t_id g) = false /\
    set_postTags (postTags (db w)) (db w') = db w /\
    forall pid' tid',
      (pid', tid') <> (p_id p, t_id g) ->
      linked (postTags (db w')) pid' tid' = linked (postTags (db w)) pid' tid'.
Proof.
  intros Hp Hg. unfold removeTagFromPost, try_catch, bind.
  rewrite Post_findByPk_find, Tag_findByPk_find, Hp, Hg.
  unfold Post.removeTag, bind, get_db, put_db, ret.
  eexists. split; [reflexivity|]. cbn [db postTags set_postTags].
  split; [apply linked_filter_same | split; [unfold set_postTags; cbn; apply tables_eta|]].
  intros pid' tid' Hne. now apply linked_filter_other.
Qed.

(** ** Deleting *)

Lemma find_filter_self {A} (key : A -> nat) (k : nat) (l : list A) :
  find (fun x => key x =? k) (filter (fun x => negb (key x =? k)) l) = None.
Proof.
  induction l as [|x l IH]; cbn; [reflexivity|].
  destruct (key x =? k) eqn:E; cbn; [exact IH|]. now rewrite E.
Qed.

Lemma find_filter_other {A} (key : A -> nat) (k k' : nat) (l : list A) :
  k' <> k ->
  find (fun x => key x =? k') (filter (fun x => negb (key x =? k)) l)
  = find (fun x => key x =? k') l.
Proof.
  intros Hne. induction l as [|x l IH]; cbn; [reflexivity|].
  destruct (key x =? k) eqn:E; cbn.
  - apply Nat.eqb_eq in E. replace (key x =? k') with false; [exact IH|].
    symmetry. apply Nat.eqb_neq. congruence.
  - now rewrite IH.
Qed.

Lemma find_some_filter {A} (f : A -> bool) (l : list A) (x : A) :
  find f l = Some x -> In x (filter f l).
Proof. intros H. apply find_some in H. now apply filter_In. Qed.

Lemma In_length_pos {A} (l : list A) (x : A) : In x l -> (0 <? List.length l) = true.
Proof. destruct l; [contradiction | reflexivity]. Qed.

(** X5. [deletePost] on a stored post answers 204 with no body; afterwards
    the id resolves to no post and no join row names it, every other id
    resolves as before, and users, profiles and tags are untouched. *)
Theorem deletePost_removes id w p :
  find_post id w = Some p ->
  exists w',
    deletePost id w = (w', mkResponse 204 JNone) /\
    find_post id w' = None /\
    (forall k, k <> id -> find_post k w' = find_post k w) /\
    (forall tid, linked (postTags (db w')) id tid = false) /\
    users (db w') = users (db w) /\
    profiles (db w') = profiles (db w) /\
    tags (db w') = tags (db w).
Proof.
  intros Hp. pose proof (find_post_id _ _ _ Hp) as Hid.
  unfold find_post in Hp. pose proof (find_some_filter _ _ _ Hp) as Hin.
  unfold deletePost, try_catch, Post.destroy, bind, get_db, put_db, ret.
  cbv beta zeta. cbn [fst snd db]. rewrite (In_length_pos _ _ Hin).
  eexists. split; [reflexivity|]. unfold find_post. cbn [db posts postTags users
    profiles tags set_posts set_postTags].
  splits; try reflexivity.
  - apply (find_filter_self p_id).
  - intros k Hk. now apply (find_filter_other p_id).
  - intros tid. unfold linked.
    destruct (existsb _ (filter _ (postTags (db w)))) eqn:E; [|reflexivity].
    apply existsb_exists in E. destruct E as [r [Hr E]].
    apply filter_In in Hr. destruct Hr as [_ Hr].
    apply andb_true_iff in E. destruct E as [E _]. apply Nat.eqb_eq in E.
    apply negb_true_iff in Hr.
    assert (T : existsb (fun q => p_id q =? postId r)
                  (filter (fun q => p_id q =? id) (posts (db w))) = true).
    { apply existsb_exists. exists p. split; [assumption|].
      apply Nat.eqb_eq. congruence. }
    congruence.
Qed.




(** ** Updating *)




Lemma map_untouched {A} (hit : A -> bool) (g : A -> A) (l : list A) :
  filter hit l = [] -> map (fun x => if hit x then g x else x) l = l.
Proof.
  induction l as [|x l IH]; cbn; [reflexivity|].
  destruct (hit x); [discriminate|]. intros H. now rewrite IH.
Qed.

Lemma length_zero_nil {A} (l : list A) : (0 <? List.length l) = false -> l = [].
Proof. destruct l; [reflexivity | discriminate]. Qed.

(** X8. An update route changes the world only when it answers 200:
    whenever [updatePost], [updateUser], [updateTag] or [updateProfile]
    answers with another status (a title that is too short, a [null] for
    a required property, an unknown status, an email in use, an id that
    resolves to nothing) the world is exactly as before. *)
Theorem update_changes_only_on_200 now id w :
  (forall ti co st,
      code (snd (updatePost now id ti co st w)) = 200 \/
      fst (updatePost now id ti co st w) = w) /\
  (forall fn ln em,
      code (snd (updateUser isEmail now id fn ln em w)) = 200 \/
      fst (updateUser isEmail now id fn ln em w) = w) /\
  (forall n,
      code (snd (updateTag now id n w)) = 200 \/
      fst (updateTag now id n w) = w) /\
  (forall b,
      code (snd (updateProfile now id b w)) = 200 \/
      fst (updateProfile now id b w) = w).
Proof.
  splits.
  - intros ti co st. unfold updatePost, try_catch.
    destruct (title_too_short ti); [right; reflexivity|].
    unfold Post.update.
    destruct (not_nulled "Post.title" ti ++ not_nulled "Post.content" co);
      [|right; reflexivity].
    unfold bind, lift, get_db, put_db, ret, Post.findByPk.
    destruct (Post.patch_status st) as [f|e]; [|right; reflexivity].
    cbv beta zeta. cbn [fst snd db].
    destruct (0 <? _) eqn:E; [left; reflexivity | right].
    apply length_zero_nil in E. cbn [fst]. rewrite (map_untouched _ _ _ E).
    unfold set_posts. now rewrite tables_eta, world_eta.
  - intros fn ln em. unfold updateUser, try_catch, User.update.
    destruct (User.validate_update isEmail fn ln em); [|right; reflexivity].
    unfold bind, get_db, put_db, ret, throw, User.findByPk.
    cbv beta zeta. cbn [fst snd db].
    match goal with |- context [if ?c then _ else _] => destruct c end;
      [right; reflexivity|].
    cbn [fst snd db].
    destruct (0 <? _) eqn:E; [left; reflexivity | right].
    apply length_zero_nil in E. cbn [fst]. rewrite (map_untouched _ _ _ E).
    unfold set_users. now rewrite tables_eta, world_eta.
  - intros n. unfold updateTag, try_catch, Tag.update.
    destruct (not_nulled "Tag.name" n); [|right; reflexivity].
    unfold bind, get_db, put_db, ret, Tag.findByPk.
    cbv beta zeta. cbn [fst snd db].
    destruct (0 <? _) eqn:E; [left; reflexivity | right].
    apply length_zero_nil in E. cbn [fst]. rewrite (map_untouched _ _ _ E).
    unfold set_tags. now rewrite tables_eta, world_eta.
  - intros b. unfold updateProfile, try_catch, Profile.update.
    unfold bind, get_db, put_db, ret, Profile.findOne.
    cbv beta zeta. cbn [fst snd db].
    destruct (0 <? _) eqn:E; [left; reflexivity | right].
    apply length_zero_nil in E. cbn [fst]. rewrite (map_untouched _ _ _ E).
    unfold set_profiles. now rewrite tables_eta, world_eta.
Qed.

(** ** Creating posts *)

(** X9. [createPost] for a user id that resolves to no user (or with no
    user id at all) answers 400 with the message User not found, and the
    world is exactly as before: nothing is inserted, no tag is created
    and no sequence moves. *)
Theorem createPost_unknown_user now flt body w :
  fails flt AtUserLookup = false ->
  find_user (b_userId body) w = None ->
  createPost now flt body w = (w, mkResponse 400 (JError (JsError "User not found"))).
Proof.
  intros Hf Hu. unfold createPost, try_catch, bind, query. rewrite Hf.
  rewrite User_findByPk_find, Hu. reflexivity.
Qed.


(** ** Finding or creating tags *)

Lemma Tag_findOrCreate_found now b s g w :
  find (fun x => String.eqb (name x) s) (tags (db w)) = Some g ->
  Tag.findOrCreate now b (Some s) w =
    (w, if b then Err storage_failure else Ok (g, false)).
Proof.
  intros H. unfold Tag.findOrCreate, query, throw, bind, get_db, ret.
  destruct b; [reflexivity|]. now rewrite H.
Qed.

Lemma find_snoc_fresh {A} (f : A -> bool) (l : list A) (x : A) :
  find f l = None -> f x = true -> find f (l ++ [x]) = Some x.
Proof.
  induction l as [|y l IH]; cbn; intros Hn Hx.
  - now rewrite Hx.
  - destruct (f y); [discriminate|]. now apply IH.
Qed.



Lemma Promise_all_found now flt names :
  forall i w,
    Forall (fun n => exists s, n = Some s /\
                     find (fun x => String.eqb (name x) s) (tags (db w)) <> None) names ->
    fst (Promise_all_findOrCreate now flt i names w) = w.
Proof.
  induction names as [|n rest IH]; intros i w Hall; cbn [Promise_all_findOrCreate].
  - reflexivity.
  - inversion Hall as [|? ? (s & -> & Hs) Hrest]; subst.
    destruct (find (fun x => String.eqb (name x) s) (tags (db w))) as [g|] eqn:F;
      [|contradiction].
    rewrite (Tag_findOrCreate_found now _ s g w F).
    specialize (IH (S i) w Hrest).
    destruct (Promise_all_findOrCreate now flt (S i) rest w) as [w2 r2].
    exact IH.
Qed.

(** X12. [createPost] creates no tag when every name of [tags] is the name
    of a stored tag: whatever the outcome of the request, the tag table
    is as before. *)
Theorem createPost_reuses_tags now flt body names w :
  b_tags body = Some names ->
  Forall (fun n => exists s, n = Some s /\ In s (map name (tags (db w)))) names ->
  tags (db (fst (createPost now flt body w))) = tags (db w).
Proof.
  intros Ht Hall.
  assert (Hfound : forall w1, tags (db w1) = tags (db w) ->
             Forall (fun n => exists s, n = Some s /\
                       find (fun x => String.eqb (name x) s) (tags (db w1)) <> None) names).
  { intros w1 E. rewrite E. revert Hall. apply Forall_impl.
    intros n (s & -> & Hin). exists s. split; [reflexivity|].
    apply in_map_iff in Hin. destruct Hin as (g & Hg & Hin).
    intros Hnone. apply (find_none _ _ Hnone) in Hin.
    apply String.eqb_neq in Hin. contradiction. }
  destruct (createPost now flt body w) as [w' r] eqn:H. cbn [fst].
  unfold createPost, try_catch in H. unfold bind at 1 in H.
  destruct (query (fails flt AtUserLookup) (User.findByPk (b_userId body)) w)
    as [w0 [user|e]] eqn:Eq.
  2:{ unfold rollback, ret, respond in H. injection H as <- _.
      unfold query in Eq. destruct (fails flt AtUserLookup);
        [unfold throw in Eq | rewrite User_findByPk_find in Eq]; now injection Eq as <-. }
  assert (w0 = w) as ->.
  { unfold query in Eq. destruct (fails flt AtUserLookup);
      [discriminate | rewrite User_findByPk_find in Eq]; now injection Eq as <-. }
  destruct user as [u|]; [|unfold throw, rollback, ret, respond in H; now injection H as <- _].
  destruct (b_userId body) as [uid|];
    [|unfold throw, rollback, ret, respond in H; now injection H as <- _].
  unfold bind at 1 in H.
  destruct (Post.create now flt (b_title body) (b_content body) uid
              (or_else (b_status body) "draft") sequelize_transaction w)
    as [w1 [[tx post]|e]] eqn:Ec.
  2:{ apply Post_create_Err in Ec. destruct Ec as [Ed _].
      unfold rollback, ret, respond in H. injection H as <- _. now rewrite Ed. }
  apply Post_create_Ok in Ec.
  destruct Ec as (s & _ & _ & _ & _ & _ & _ & Hd & _).
  assert (E1 : tags (db w1) = tags (db w)) by now rewrite Hd.
  rewrite Ht in H. unfold bind at 1 in H.
  destruct names as [|n rest].
  - unfold ret at 1 in H. unfold bind, commit, get_db, put_db, ret in H.
    injection H as <- _. exact E1.
  - unfold bind at 1 in H.
    pose proof (Promise_all_found now flt (n :: rest) 0 w1 (Hfound w1 E1)) as Hsame.
    destruct (Promise_all_findOrCreate now flt 0 (n :: rest) w1) as [w2 [xs|e]];
      cbn [fst] in Hsame; subst w2.
    2:{ unfold rollback, ret, respond in H. now injection H as <- _. }
    destruct (Post.addTags now flt post (map fst xs) tx w1) as [w3 [tx3|e]] eqn:Ea;
      apply Post_addTags_spec in Ea; destruct Ea as [-> _].
    + unfold bind, commit, get_db, put_db, ret in H. injection H as <- _. exact E1.
    + unfold rollback, ret, respond in H. now injection H as <- _.
Qed.

(** ** References between the tables *)

Ltac run :=
  unfold try_catch, respond, bind, ret, throw, lift, query, get_db, put_db,
    console_log, nextval_users, nextval_profiles, nextval_posts, nextval_tags,
    commit, rollback in *;
  cbn [fst snd db seqs console users profiles posts tags postTags
       users_id_seq profiles_id_seq posts_id_seq tags_id_seq
       set_users set_profiles set_posts set_tags set_postTags] in *.

Ltac inv_pair H := injection H as <- <-.

Lemma find_key_iff {A} (key : A -> nat) (k : nat) (l : list A) :
  find (fun x => key x =? k) l <> None <-> exists x, In x l /\ key x = k.
Proof.
  split.
  - destruct (find _ l) as [x|] eqn:F; [|contradiction]. intros _.
    apply find_some in F. destruct F as [Hin Hk]. apply Nat.eqb_eq in Hk. eauto.
  - intros (x & Hin & Hk) Hn. apply (find_none _ _ Hn) in Hin.
    apply Nat.eqb_neq in Hin. contradiction.
Qed.

Lemma Refs_iff w : Refs w <-> References (db w).
Proof.
  unfold References, has_user, has_post, has_tag. split.
  - intros [Rp Rq Rl]. rewrite Forall_forall in Rp, Rq, Rl. splits.
    + intros p Hin. apply (find_key_iff u_id). exact (Rp p Hin).
    + intros p Hin. apply (find_key_iff u_id). exact (Rq p Hin).
    + intros r Hin. destruct (Rl r Hin) as [Hp Hg]. split.
      * now apply (find_key_iff p_id).
      * now apply (find_key_iff t_id).
  - intros (Rp & Rq & Rl). constructor; apply Forall_forall.
    + intros p Hin. apply (find_key_iff u_id). exact (Rp p Hin).
    + intros p Hin. apply (find_key_iff u_id). exact (Rq p Hin).
    + intros r Hin. destruct (Rl r Hin) as [Hp Hg]. split.
      * now apply (find_key_iff p_id).
      * now apply (find_key_iff t_id).
Qed.

(** The references survive a change of the tables that loses no key of
    users, posts and tags and adds only rows whose references are
    stored. *)
Lemma References_mono t t' :
  References t ->
  (forall uid, has_user t uid -> has_user t' uid) ->
  (forall pid, has_post t pid -> has_post t' pid) ->
  (forall tid, has_tag t tid -> has_tag t' tid) ->
  (forall p, In p (profiles t') ->
     (exists q, In q (profiles t) /\ pr_userId q = pr_userId p) \/
     has_user t' (pr_userId p)) ->
  (forall p, In p (posts t') ->
     (exists q, In q (posts t) /\ userId q = userId p) \/ has_user t' (userId p)) ->
  (forall r, In r (postTags t') ->
     In r (postTags t) \/ (has_post t' (postId r) /\ has_tag t' (tagId r))) ->
  References t'.
Proof.
  intros (Rp & Rq & Rl) Hu Hp Hg Hpr Hpo Hl. unfold References. splits.
  - intros p Hin. destruct (Hpr p Hin) as [(q & Hq & <-) | H]; auto.
  - intros p Hin. destruct (Hpo p Hin) as [(q & Hq & <-) | H]; auto.
  - intros r Hin. destruct (Hl r Hin) as [H | H]; [|assumption].
    destruct (Rl r H). auto.
Qed.

Lemma keeps_refs_ret {A} (a : A) : keeps_refs (ret a).
Proof. intros w w' r H R. run. now inv_pair H. Qed.

Lemma keeps_refs_throw {A} (e : Error) : keeps_refs (@throw A e).
Proof. intros w w' r H R. run. now inv_pair H. Qed.

Lemma keeps_refs_bind {A B} (m : M A) (k : A -> M B) :
  keeps_refs m -> (forall a, keeps_refs (k a)) -> keeps_refs (bind m k).
Proof.
  intros Hm Hk w w' r H R. unfold bind in H.
  destruct (m w) as [w1 [a|e]] eqn:E.
  - eapply Hk; eauto.
  - inv_pair H. eauto.
Qed.

(** A computation that only reads. *)
Lemma keeps_refs_read {A} (m : M A) : (forall w, fst (m w) = w) -> keeps_refs m.
Proof. intros Hm w w' r H R. specialize (Hm w). rewrite H in Hm. cbn in Hm. now subst. Qed.

Lemma has_app {A} (key : A -> nat) (l more : list A) (k : nat) :
  (exists x, In x l /\ key x = k) -> exists x, In x (l ++ more) /\ key x = k.
Proof. intros (x & Hin & E). exists x. split; [apply in_or_app; now left | assumption]. Qed.

Lemma has_map {A} (key : A -> nat) (g : A -> A) (l : list A) (k : nat) :
  (forall x, key (g x) = key x) ->
  (exists x, In x l /\ key x = k) -> exists x, In x (map g l) /\ key x = k.
Proof.
  intros Hg (x & Hin & E). exists (g x). split; [now apply in_map | now rewrite Hg].
Qed.

Lemma keeps_refs_User_create now fn ln em :
  keeps_refs (User.create isEmail now fn ln em).
Proof.
  intros w w' r H R. unfold User.create, User.afterCreate in H.
  destruct (User.validate isEmail fn ln em); [|run; now inv_pair H].
  destruct fn; try (run; now inv_pair H).
  destruct ln; try (run; now inv_pair H).
  destruct em as [| |c]; try (run; now inv_pair H).
  run. destruct (existsb _ _) eqn:E; inv_pair H; apply Refs_iff in R; apply Refs_iff;
    cbn [db]; [exact R|].
  apply (References_mono (db w)); cbn [users profiles posts tags postTags set_users]; auto.
  - intros uid. apply (has_app u_id).
  - intros p Hin. left. eauto.
  - intros p Hin. left. eauto.
Qed.

Lemma keeps_refs_User_update now fn ln em k :
  keeps_refs (User.update isEmail now fn ln em k).
Proof.
  intros w w' r H R. unfold User.update in H.
  destruct (User.validate_update isEmail fn ln em); [|run; now inv_pair H].
  run.
  match type of H with context [if ?c then _ else _] => destruct c eqn:C end;
    inv_pair H; [assumption|].
  apply Refs_iff in R. apply Refs_iff. cbn [db].
  apply (References_mono (db w)); cbn [users profiles posts tags postTags set_users]; auto.
  - intros uid. apply (has_map u_id). intros u. now destruct (u_id u =? k).
  - intros p Hin. left. eauto.
  - intros p Hin. left. eauto.
Qed.

Lemma existsb_key_false {A} (key : A -> nat) (k : nat) (l : list A) (x : A) :
  existsb (fun y => key y =? k) l = false -> In x l -> key x <> k.
Proof.
  intros H Hin E. apply Bool.not_true_iff_false in H. apply H.
  apply existsb_exists. exists x. split; [assumption | now apply Nat.eqb_eq].
Qed.

Lemma keeps_refs_User_destroy k : keeps_refs (User.destroy k).
Proof.
  intros w w' r H R. unfold User.destroy in H. run. inv_pair H.
  apply Refs_iff in R. apply Refs_iff. destruct R as (Rp & Rq & Rl).
  cbn [db]. unfold References, has_user, has_post, has_tag.
  cbn [users profiles posts tags postTags].
  assert (kept : forall uid,
             existsb (fun u => u_id u =? uid)
               (filter (fun u => u_id u =? k) (users (db w))) = false ->
             (exists u, In u (users (db w)) /\ u_id u = uid) ->
             exists u, In u (filter (fun u => negb (u_id u =? k)) (users (db w))) /\
                       u_id u = uid).
  { intros uid Ho (u & Hin & E). exists u. split; [|assumption].
    apply filter_In. split; [assumption|].
    destruct (u_id u =? k) eqn:Ek; [|reflexivity]. exfalso.
    refine (existsb_key_false u_id uid _ u Ho _ E).
    apply filter_In. auto. }
  splits.
  - intros p Hin. apply filter_In in Hin. destruct Hin as [Hin Ho].
    apply Bool.negb_true_iff in Ho. apply kept; [assumption | now apply Rp].
  - intros p Hin. apply filter_In in Hin. destruct Hin as [Hin Ho].
    apply Bool.negb_true_iff in Ho. apply kept; [assumption | now apply Rq].
  - intros r Hin. apply filter_In in Hin. destruct Hin as [Hin Ho].
    apply Bool.negb_true_iff in Ho. destruct (Rl r Hin) as [(p & Hp & E) Hg].
    split; [|assumption]. exists p. split; [|assumption].
    apply filter_In. split; [assumption|].
    destruct (existsb _ (filter _ (users (db w)))) eqn:Eo in |- *; [|reflexivity].
    exfalso. refine (existsb_key_false p_id (postId r) _ p Ho _ E).
    apply filter_In. split; [assumption | exact Eo].
Qed.

Lemma keeps_refs_Profile_create now b uid w w' r :
  find_user (Some uid) w <> None ->
  Profile.create now b uid w = (w', r) -> Refs w -> Refs w'.
Proof.
  intros Hu H R. unfold Profile.create in H. run. inv_pair H.
  apply Refs_iff in R. apply Refs_iff. cbn [db].
  apply (find_key_iff u_id) in Hu.
  apply (References_mono (db w)); cbn [users profiles posts tags postTags set_profiles]; auto.
  - intros p Hin. apply in_app_or in Hin. destruct Hin as [Hin | [<- | []]].
    + left. eauto.
    + right. exact Hu.
  - intros p Hin. left. eauto.
Qed.

Lemma keeps_refs_Profile_update now b uid : keeps_refs (Profile.update now b uid).
Proof.
  intros w w' r H R. unfold Profile.update in H. run. inv_pair H.
  apply Refs_iff in R. apply Refs_iff. cbn [db].
  apply (References_mono (db w)); cbn [users profiles posts tags postTags set_profiles]; auto.
  - intros p Hin. apply in_map_iff in Hin. destruct Hin as (q & <- & Hq).
    left. exists q. split; [assumption|]. now destruct (pr_userId q =? uid).
  - intros p Hin. left. eauto.
Qed.

Lemma keeps_refs_Profile_destroy uid : keeps_refs (Profile.destroy uid).
Proof.
  intros w w' r H R. unfold Profile.destroy in H. run. inv_pair H.
  apply Refs_iff in R. apply Refs_iff. cbn [db].
  apply (References_mono (db w)); cbn [users profiles posts tags postTags set_profiles]; auto.
  - intros p Hin. apply filter_In in Hin. left. exists p. tauto.
  - intros p Hin. left. eauto.
Qed.

Lemma keeps_refs_Tag_create now n : keeps_refs (Tag.create now n).
Proof.
  intros w w' r H R. unfold Tag.create in H.
  destruct n as [| |s]; try (run; now inv_pair H).
  run. inv_pair H. apply Refs_iff in R. apply Refs_iff. cbn [db].
  apply (References_mono (db w)); cbn [users profiles posts tags postTags set_tags]; auto.
  - intros tid. apply (has_app t_id).
  - intros p Hin. left. eauto.
  - intros p Hin. left. eauto.
Qed.

Lemma keeps_refs_Tag_update now n k : keeps_refs (Tag.update now n k).
Proof.
  intros w w' r H R. unfold Tag.update in H.
  destruct (not_nulled "Tag.name" n); [|run; now inv_pair H].
  run. inv_pair H. apply Refs_iff in R. apply Refs_iff. cbn [db].
  apply (References_mono (db w)); cbn [users profiles posts tags postTags set_tags]; auto.
  - intros tid. apply (has_map t_id). intros g. now destruct (t_id g =? k).
  - intros p Hin. left. eauto.
  - intros p Hin. left. eauto.
Qed.

Lemma keeps_refs_Tag_destroy k : keeps_refs (Tag.destroy k).
Proof.
  intros w w' r H R. unfold Tag.destroy in H. run. inv_pair H.
  apply Refs_iff in R. apply Refs_iff. destruct R as (Rp & Rq & Rl).
  cbn [db]. unfold References, has_user, has_post, has_tag.
  cbn [users profiles posts tags postTags set_tags set_postTags]. splits; auto.
  intros r Hin. apply filter_In in Hin. destruct Hin as [Hin Ho].
  apply Bool.negb_true_iff in Ho. destruct (Rl r Hin) as [Hp (g & Hg & E)].
  split; [assumption|]. exists g. split; [|assumption].
  apply filter_In. split; [assumption|].
  destruct (t_id g =? k) eqn:Ek; [|reflexivity]. exfalso.
  refine (existsb_key_false t_id (tagId r) _ g Ho _ E).
  apply filter_In. auto.
Qed.

Lemma keeps_refs_Post_update now ti co st k : keeps_refs (Post.update now ti co st k).
Proof.
  intros w w' r H R. unfold Post.update in H.
  destruct (not_nulled "Post.title" ti ++ not_nulled "Post.content" co);
    [|run; now inv_pair H].
  run. destruct (Post.patch_status st) as [f|e]; inv_pair H; [|assumption].
  apply Refs_iff in R. apply Refs_iff. cbn [db].
  apply (References_mono (db w)); cbn [users profiles posts tags postTags set_posts]; auto.
  - intros pid. apply (has_map p_id). intros p. now destruct (p_id p =? k).
  - intros p Hin. left. eauto.
  - intros p Hin. apply in_map_iff in Hin. destruct Hin as (q & <- & Hq).
    left. exists q. split; [assumption|]. now destruct (p_id q =? k).
Qed.

Lemma keeps_refs_Post_destroy k : keeps_refs (Post.destroy k).
Proof.
  intros w w' r H R. unfold Post.destroy in H. run. inv_pair H.
  apply Refs_iff in R. apply Refs_iff. destruct R as (Rp & Rq & Rl).
  cbn [db]. unfold References, has_user, has_post, has_tag.
  cbn [users profiles posts tags postTags set_posts set_postTags]. splits; auto.
  - intros p Hin. apply filter_In in Hin. now apply Rq.
  - intros r Hin. apply filter_In in Hin. destruct Hin as [Hin Ho].
    apply Bool.negb_true_iff in Ho. destruct (Rl r Hin) as [(p & Hp & E) Hg].
    split; [|assumption]. exists p. split; [|assumption].
    apply filter_In. split; [assumption|].
    destruct (p_id p =? k) eqn:Ek; [|reflexivity]. exfalso.
    refine (existsb_key_false p_id (postId r) _ p Ho _ E).
    apply filter_In. auto.
Qed.

Lemma keeps_refs_Post_removeTag p g : keeps_refs (Post.removeTag p g).
Proof.
  intros w w' r H R. unfold Post.removeTag in H. run. inv_pair H.
  apply Refs_iff in R. apply Refs_iff. cbn [db].
  apply (References_mono (db w)); cbn [users profiles posts tags postTags set_postTags]; auto.
  - intros q Hin. left. eauto.
  - intros q Hin. left. eauto.
  - intros x Hin. apply filter_In in Hin. tauto.
Qed.

Lemma addTagToPost_Refs now pid tid w :
  Refs w -> Refs (fst (addTagToPost now pid tid w)).
Proof.
  intros R. rewrite addTagToPost_spec.
  destruct (find_post pid w) as [p|] eqn:Ep; [|exact R].
  destruct (find_tag tid w) as [g|] eqn:Eg; [|exact R].
  cbn [fst]. apply Refs_iff in R. apply Refs_iff. cbn [db].
  apply (References_mono (db w)); cbn [users profiles posts tags postTags set_postTags]; auto.
  - intros q Hin. left. eauto.
  - intros q Hin. left. eauto.
  - intros x Hin. apply in_app_or in Hin. destruct Hin as [Hin | Hin]; [now left|].
    destruct (linked _ _ _); [destruct Hin|]. destruct Hin as [<- | []].
    right. cbn [postId tagId]. unfold find_post in Ep. apply find_some in Ep.
    destruct tid as [i|]; [|discriminate]. unfold find_tag in Eg. apply find_some in Eg.
    split; [exists p | exists g]; tauto.
Qed.

Lemma Forall2_fst_In {X Y} (P : X -> Y -> Prop) (xs : list X) (ys : list Y) (x : X) :
  Forall2 P xs ys -> In x xs -> exists y, P x y.
Proof.
  induction 1 as [|a b xs ys Hab _ IH]; intros Hin; [destruct Hin|].
  destruct Hin as [<- | Hin]; eauto.
Qed.

Lemma createPost_Refs now flt body w :
  Refs w -> Refs (fst (createPost now flt body w)).
Proof.
  intros R. destruct (createPost now flt body w) as [w' r] eqn:H. cbn [fst].
  apply createPost_outcome in H. apply Refs_iff in R. apply Refs_iff.
  destruct H as [(_ & _ & (Ku & Kp & Ko & Kl & extra & Kt) & _) | H].
  - apply (References_mono (db w)); unfold has_user, has_post, has_tag;
      rewrite ?Ku, ?Kp, ?Ko, ?Kl, ?Kt; auto.
    + intros tid. apply (has_app t_id).
    + intros p Hin. left. eauto.
    + intros p Hin. left. eauto.
  - destruct H as (uid & u & s & w1 & w2 & instances & H). cbn zeta in H.
    destruct H as (_ & Hu & _ & _ & _ & Hd & _ & _ & _ & Hts & Hg & _ & ->).
    destruct Hg as (Gu & Gp & Go & Gl & (extra & Gt) & _).
    rewrite Hd in Gu, Gp, Go, Gl, Gt. cbn [db].
    apply (References_mono (db w)); unfold has_user, has_post, has_tag;
      cbn [users profiles posts tags postTags]; rewrite ?Gu, ?Gp, ?Go, ?Gl, ?Gt; auto.
    + intros pid. apply (has_app p_id).
    + intros tid. apply (has_app t_id).
    + intros p Hin. left. eauto.
    + intros p Hin. apply in_app_or in Hin. destruct Hin as [Hin | [<- | []]].
      * left. eauto.
      * right. cbn [userId]. unfold find_user in Hu. apply find_some in Hu.
        exists u. split; [tauto|]. now apply Nat.eqb_eq.
    + intros x Hin. apply in_app_or in Hin. destruct Hin as [Hin | Hin]; [now left|].
      right. unfold through_rows in Hin. apply in_map_iff in Hin.
      destruct Hin as (g & <- & Hg). apply filter_In in Hg. destruct Hg as [Hg _].
      cbn [postId tagId]. split.
      * eexists. split; [apply in_or_app; right; left; reflexivity | reflexivity].
      * unfold tag_stage in Hts. exists g. split; [|reflexivity]. rewrite <- Gt.
        destruct (b_tags body) as [[|n rest]|].
        -- destruct Hts as [_ ->]. destruct Hg.
        -- destruct Hts as (xs & Hall & -> & _).
           apply Promise_all_Ok in Hall. apply in_map_iff in Hg.
           destruct Hg as (x & <- & Hx).
           destruct (Forall2_fst_In _ _ _ _ Hall Hx) as (y & _ & Hy). exact Hy.
        -- destruct Hts as [_ ->]. destruct Hg.
Qed.

(** Every controller keeps the references. *)
Lemma handle_Refs now r w : Refs w -> Refs (fst (handle isEmail builtin now r w)).
Proof.
  intros R. destruct (handle isEmail builtin now r w) as [w' resp] eqn:H.
  cbn [fst]. revert H.
  assert (tc : forall (body : M Response) (c : nat),
             keeps_refs body ->
             try_catch body (fun error => respond c (JError error)) w = (w', resp) ->
             Refs w').
  { intros body c Hb. unfold try_catch, respond.
    destruct (body w) as [w1 [x|e]] eqn:E; intros H; inv_pair H; eapply Hb; eauto. }
  destruct r; cbn [handle].
  - apply tc. apply keeps_refs_bind; [apply keeps_refs_User_create|].
    intros; apply keeps_refs_ret.
  - apply tc. apply keeps_refs_bind; [apply keeps_refs_User_update|].
    intros a. destruct (0 <? a); [|apply keeps_refs_ret].
    apply keeps_refs_bind; [now apply keeps_refs_read|]. intros; apply keeps_refs_ret.
  - apply tc. apply keeps_refs_bind; [apply keeps_refs_User_destroy|].
    intros a. destruct (0 <? a); apply keeps_refs_ret.
  - unfold createProfile, try_catch, respond. unfold bind at 1.
    rewrite User_findByPk_find.
    destruct (find_user uid w) as [u|] eqn:Eu; [|unfold ret; intros H; now inv_pair H].
    destruct uid as [i|]; [|unfold ret; intros H; now inv_pair H].
    unfold bind.
    destruct (Profile.create now b i w) as [w1 [x|e]] eqn:E; unfold ret;
      intros H; inv_pair H; eapply keeps_refs_Profile_create; try eassumption;
      now rewrite Eu.
  - apply tc. apply keeps_refs_bind; [apply keeps_refs_Profile_update|].
    intros a. destruct (0 <? a); [|apply keeps_refs_ret].
    apply keeps_refs_bind; [now apply keeps_refs_read|]. intros; apply keeps_refs_ret.
  - apply tc. apply keeps_refs_bind; [apply keeps_refs_Profile_destroy|].
    intros a. destruct (0 <? a); apply keeps_refs_ret.
  - intros H. pose proof (createPost_Refs now flt body w R) as X. now rewrite H in X.
  - unfold getAllPosts. apply tc.
    apply keeps_refs_bind; [now apply keeps_refs_read|]. intros sc.
    apply keeps_refs_bind.
    + apply keeps_refs_read. intros v. unfold Post.findAndCountAll, bind, get_db.
      now destruct (_ || _)%bool.
    + intros [c rows]. apply keeps_refs_ret.
  - apply tc. apply keeps_refs_bind; [now apply keeps_refs_read|].
    intros [v|]; apply keeps_refs_ret.
  - apply tc. destruct (title_too_short ti); [apply keeps_refs_throw|].
    apply keeps_refs_bind; [apply keeps_refs_Post_update|].
    intros a. destruct (0 <? a); [|apply keeps_refs_ret].
    apply keeps_refs_bind; [now apply keeps_refs_read|]. intros; apply keeps_refs_ret.
  - apply tc. apply keeps_refs_bind; [apply keeps_refs_Post_destroy|].
    intros a. destruct (0 <? a); apply keeps_refs_ret.
  - apply tc. apply keeps_refs_bind; [apply keeps_refs_Tag_create|].
    intros; apply keeps_refs_ret.
  - apply tc. apply keeps_refs_bind; [apply keeps_refs_Tag_update|].
    intros a. destruct (0 <? a); [|apply keeps_refs_ret].
    apply keeps_refs_bind; [now apply keeps_refs_read|]. intros; apply keeps_refs_ret.
  - apply tc. apply keeps_refs_bind; [apply keeps_refs_Tag_destroy|].
    intros a. destruct (0 <? a); apply keeps_refs_ret.
  - intros H. pose proof (addTagToPost_Refs now pid tid w R) as X. now rewrite H in X.
  - apply tc. apply keeps_refs_bind; [now apply keeps_refs_read|]. intros [p|].
    + apply keeps_refs_bind; [now apply keeps_refs_read|]. intros [g|].
      * apply keeps_refs_bind; [apply keeps_refs_Post_removeTag|].
        intros; apply keeps_refs_ret.
      * apply keeps_refs_ret.
    + apply keeps_refs_bind; [now apply keeps_refs_read|]. intros [g|];
        apply keeps_refs_ret.
Qed.

Lemma Refs_reachable w : reachable isEmail builtin w -> Refs w.
Proof.
  induction 1 as [|w now r _ IH]; [|now apply handle_Refs].
  constructor; cbn; constructor.
Qed.

(** X13. Referential integrity: in every state the server reaches, every
    profile and every post belongs to a stored user, and every row of the
    join table links a stored post to a stored tag. *)
Theorem reachable_Refs w : reachable isEmail builtin w -> Refs w.
Proof.
  intros Hr. induction Hr as [|w now r _ IH].
  - constructor; cbn; constructor.
  - apply handle_Refs. exact IH.
Qed.

(** ** Users and profiles *)





(** X15. [updateUser] with the email of another stored user is refused by
    the unique index: the answer is 500 with the constraint error and the
    world is as before. *)
Theorem updateUser_email_taken now id fn ln s w u other :
  isEmail s = true -> fn <> Null -> ln <> Null ->
  find_user (Some id) w = Some u ->
  In other (users (db w)) -> u_id other <> id -> email other = s ->
  updateUser isEmail now id fn ln (Str s) w =
    (w, mkResponse 500 (JError (UniqueConstraintError "email"))).
Proof.
  intros He Hfn Hln Hu Hin Hne Hs.
  unfold updateUser, try_catch, User.update, User.validate_update.
  replace (not_nulled "User.firstName" fn) with (@nil Violation)
    by (destruct fn; [reflexivity | contradiction | reflexivity]).
  replace (not_nulled "User.lastName" ln) with (@nil Violation)
    by (destruct ln; [reflexivity | contradiction | reflexivity]).
  cbn [not_nulled app]. rewrite He. unfold bind at 1. unfold bind at 1.
  unfold get_db at 1. cbv beta zeta.
  replace (existsb (fun x => u_id x =? id) (users (db w))) with true.
  2:{ symmetry. apply existsb_exists. unfold find_user in Hu. apply find_some in Hu.
      exists u. exact Hu. }
  replace (existsb (fun x => negb (u_id x =? id) && String.eqb (email x) s)
             (users (db w))) with true.
  2:{ symmetry. apply existsb_exists. exists other. split; [assumption|].
      apply andb_true_iff. split.
      - apply Bool.negb_true_iff. now apply Nat.eqb_neq.
      - now apply String.eqb_eq. }
  reflexivity.
Qed.

(** X16. [createProfile] answers 404 and changes nothing when the user id
    resolves to no user.  For a stored user it answers 201 and appends a
    profile with the next id of the sequence, whether the user has a
    profile already or not; when the user had none, [getProfile] then
    answers that profile together with the user. *)
Theorem createProfile_then_getProfile now b uid w :
  (find_user uid w = None ->
   createProfile now b uid w = (w, mkResponse 404 (JMessage "User not found"))) /\
  (forall u, find_user uid w = Some u ->
     let p := mkProfile (profiles_id_seq (seqs w)) (column b) (u_id u) now now in
     exists w',
       createProfile now b uid w = (w', mkResponse 201 (JProfile p)) /\
       db w' = set_profiles (profiles (db w) ++ [p]) (db w) /\
       (find (fun q => pr_userId q =? u_id u) (profiles (db w)) = None ->
        getProfile (u_id u) w' =
          (w', mkReply 200 (DProfile (mkProfileView p (Some u)))))).
Proof.
  split.
  - intros Hu. unfold createProfile, try_catch, bind.
    rewrite User_findByPk_find, Hu. reflexivity.
  - intros u Hu p. unfold createProfile, try_catch. unfold bind at 1.
    rewrite User_findByPk_find, Hu. destruct uid as [i|]; [|discriminate].
    pose proof (find_user_id _ _ _ Hu) as Hi. subst i.
    unfold Profile.create. run. eexists. split; [reflexivity|].
    split; [reflexivity|]. intros Hnone.
    unfold getProfile, try_catch_reply, bind, Profile_findOne_include, ret.
    cbn [db profiles users set_profiles].
    subst p. rewrite (find_snoc_fresh _ _ _ Hnone) by (cbn; apply Nat.eqb_refl).
    cbn [option_map pr_userId]. unfold find_user in Hu. now rewrite Hu.
Qed.

(** X17. In every state the server reaches, a post shown by [getPostById]
    comes with its author: the user of the answer is present and is the
    one the post refers to. *)
Theorem getPostById_has_author id w v :
  reachable isEmail builtin w ->
  snd (getPostById id w) = mkResponse 200 (JPostFull v) ->
  exists u, pv_User v = Some u /\ u_id u = userId (pv_post v) /\
            In u (users (db w)) /\ find_post id w = Some (pv_post v).
Proof.
  intros Hr. pose proof (Refs_reachable w Hr) as R. apply Refs_iff in R.
  destruct R as (_ & Rq & _).
  unfold getPostById, try_catch, bind, Post.findByPk_include, ret. fold (find_post id w).
  destruct (find_post id w) as [p|] eqn:Ep; cbn [option_map snd]; [|discriminate].
  intros H. injection H as <-. cbn [pv_post pv_User view].
  unfold find_post in Ep. apply find_some in Ep. destruct Ep as [Hin _].
  destruct (Rq p Hin) as (u & Hu & E).
  unfold users_of. destruct (filter _ (users (db w))) as [|x rest] eqn:F.
  - exfalso. assert (Hx : In u (filter (fun x => u_id x =? userId p) (users (db w)))).
    { apply filter_In. split; [assumption | now apply Nat.eqb_eq]. }
    rewrite F in Hx. destruct Hx.
  - exists x. assert (Hx : In x (filter (fun x => u_id x =? userId p) (users (db w)))).
    { rewrite F. now left. }
    apply filter_In in Hx. destruct Hx as [Hx Ex]. apply Nat.eqb_eq in Ex.
    splits; auto.
Qed.

(** ** Paging *)





(** X19. A negative size, or a page below 1 with a positive size, makes
    the storage refuse the query: [getAllPosts] answers 500 with the
    error and the world is as before. *)
Theorem getAllPosts_bad_paging page limit sname sc w :
  Post.scope builtin sname = Ok sc ->
  (limit < 0 \/ (page < 1 /\ 0 < limit))%Z ->
  exists e,
    getAllPosts builtin (mkQuery (Some page) (Some limit) (Some sname)) w =
      (w, mkResponse 500 (JError e)).
Proof.
  intros Hsc Hbad.
  unfold getAllPosts, Post.findAndCountAll, try_catch, bind, lift, get_db, throw, respond.
  cbn [default q_page q_limit q_status]. rewrite Hsc.
  replace ((limit <? 0)%Z || ((page - 1) * limit <? 0)%Z) with true.
  - eexists. reflexivity.
  - symmetry. apply orb_true_iff. destruct Hbad as [H | [H1 H2]].
    + left. now apply Z.ltb_lt.
    + right. apply Z.ltb_lt. nia.
Qed.


(** X21. The GET routes only read: whatever they answer, the world is the
    one they were called in. *)
Theorem reads_change_nothing w :
  (forall q, fst (getAllPosts builtin q w) = w) /\
  (forall id, fst (getPostById id w) = w) /\
  fst (getAllUsers w) = w /\
  (forall id, fst (getUserById id w) = w) /\
  (forall uid, fst (getProfile uid w) = w) /\
  fst (getAllTags w) = w.
Proof.
  splits.
  - intros q. unfold getAllPosts, try_catch, bind, lift, respond.
    destruct (Post.scope builtin _) as [sc|e]; [|reflexivity].
    unfold Post.findAndCountAll, bind, get_db, throw, ret.
    now destruct (_ || _)%bool.
  - intros id. unfold getPostById, try_catch, bind, Post.findByPk_include, ret.
    now destruct (option_map _ _).
  - reflexivity.
  - intros id. unfold getUserById, try_catch_reply, bind, User_findByPk_include, ret.
    now destruct (option_map _ _).
  - intros uid. unfold getProfile, try_catch_reply, bind, Profile_findOne_include, ret.
    now destruct (option_map _ _).
  - reflexivity.
Qed.

(** ** Tags *)

(** X22. [deleteTag] on a stored tag answers 204 with no body; afterwards
    the id resolves to no tag and no join row names it, every other id
    resolves as before, and users, profiles and posts are untouched. *)
Theorem deleteTag_removes id w g :
  find_tag (Some id) w = Some g ->
  exists w',
    deleteTag id w = (w', mkResponse 204 JNone) /\
    find_tag (Some id) w' = None /\
    (forall k, k <> id -> find_tag (Some k) w' = find_tag (Some k) w) /\
    (forall pid, linked (postTags (db w')) pid id = false) /\
    users (db w') = users (db w) /\
    profiles (db w') = profiles (db w) /\
    posts (db w') = posts (db w).
Proof.
  intros Hg. pose proof (find_tag_id _ _ _ Hg) as Hid.
  unfold find_tag in Hg. pose proof (find_some_filter _ _ _ Hg) as Hin.
  unfold deleteTag, try_catch, Tag.destroy, bind, get_db, put_db, ret.
  cbv beta zeta. cbn [fst snd db]. rewrite (In_length_pos _ _ Hin).
  eexists. split; [reflexivity|]. unfold find_tag.
  cbn [db posts postTags users profiles tags set_tags set_postTags].
  splits; try reflexivity.
  - apply (find_filter_self t_id).
  - intros k Hk. now apply (find_filter_other t_id).
  - intros pid. unfold linked.
    destruct (existsb _ (filter _ (postTags (db w)))) eqn:E; [|reflexivity].
    apply existsb_exists in E. destruct E as [r [Hr E]].
    apply filter_In in Hr. destruct Hr as [_ Hr].
    apply andb_true_iff in E. destruct E as [_ E]. apply Nat.eqb_eq in E.
    apply negb_true_iff in Hr.
    assert (T : existsb (fun q => t_id q =? tagId r)
                  (filter (fun q => t_id q =? id) (tags (db w))) = true).
    { apply existsb_exists. exists g. split; [assumption|].
      apply Nat.eqb_eq. congruence. }
    congruence.
Qed.



(** X25. [deleteProfile] for a user with a profile answers 204; afterwards
    [getProfile] for that user answers 404, and the other tables are as
    before. *)
Theorem deleteProfile_then_getProfile uid w p :
  find (fun q => pr_userId q =? uid) (profiles (db w)) = Some p ->
  exists w',
    deleteProfile uid w = (w', mkResponse 204 JNone) /\
    getProfile uid w' = (w', mkReply 404 (DMessage "Profile not found")) /\
    set_profiles (profiles (db w)) (db w') = db w.
Proof.
  intros Hp. pose proof (find_some_filter _ _ _ Hp) as Hin.
  unfold deleteProfile, try_catch, Profile.destroy, bind, get_db, put_db, ret.
  cbv beta zeta. cbn [fst snd db]. rewrite (In_length_pos _ _ Hin).
  eexists. split; [reflexivity|].
  unfold getProfile, try_catch_reply, bind, Profile_findOne_include, ret.
  cbn [db profiles set_profiles]. split.
  - now rewrite (find_filter_self pr_userId).
  - unfold set_profiles. cbn. apply tables_eta.
Qed.

(** ** The migration of the profiles *)

Lemma rename_back from to (cols : list string) :
  existsb (String.eqb to) cols = false ->
  map (rename to from) (map (rename from to) cols) = cols.
Proof.
  induction cols as [|c cols IH]; cbn; [reflexivity|].
  intros H. apply orb_false_iff in H. destruct H as [Hc Hrest].
  rewrite IH by assumption. f_equal. unfold rename.
  destruct (String.eqb c from) eqn:E.
  - rewrite String.eqb_refl. now apply String.eqb_eq in E.
  - rewrite String.eqb_sym in Hc. now rewrite Hc.
Qed.

Lemma renamed_has_new from to (cols : list string) :
  existsb (String.eqb from) cols = true ->
  existsb (String.eqb to) (map (rename from to) cols) = true.
Proof.
  induction cols as [|c cols IH]; cbn; [discriminate|].
  intros H. apply orb_true_iff in H. apply orb_true_iff. destruct H as [H | H].
  - left. unfold rename. rewrite String.eqb_sym in H. rewrite H. apply String.eqb_refl.
  - right. now apply IH.
Qed.

Lemma renamed_lacks_old from to (cols : list string) :
  from <> to ->
  existsb (String.eqb from) (map (rename from to) cols) = false.
Proof.
  intros Hne. induction cols as [|c cols IH]; cbn; [reflexivity|].
  rewrite IH, orb_false_r. unfold rename.
  destruct (String.eqb c from) eqn:E.
  - now apply String.eqb_neq.
  - now rewrite String.eqb_sym.
Qed.

Lemma renameColumn_Ok table from to :
  from <> to ->
  forall s s',
    renameColumn table from to s = Ok s' ->
    renameColumn table to from s' = Ok s /\
    existsb (String.eqb to) (columns_of table s') = true /\
    existsb (String.eqb from) (columns_of table s') = false /\
    (forall t, t <> table -> columns_of t s' = columns_of t s).
Proof.
  intros Hne. induction s as [|[t cols] rest IH]; intros s'; cbn [renameColumn];
    [discriminate|].
  destruct (String.eqb t table) eqn:Et.
  - destruct (existsb (String.eqb from) cols) eqn:Ef; cbn [negb]; [|discriminate].
    destruct (existsb (String.eqb to) cols) eqn:Eto; [discriminate|].
    intros H. injection H as <-. cbn [renameColumn columns_of]. rewrite Et.
    rewrite (renamed_has_new _ _ _ Ef), (renamed_lacks_old _ _ cols Hne).
    cbn [negb]. rewrite (rename_back _ _ _ Eto). splits; try reflexivity.
    intros t' Ht'. apply String.eqb_eq in Et. subst t.
    replace (String.eqb table t') with false; [reflexivity|].
    symmetry. apply String.eqb_neq. congruence.
  - destruct (renameColumn table from to rest) as [rest'|e]; [|discriminate].
    intros H. injection H as <-. cbn [renameColumn columns_of]. rewrite Et.
    destruct (IH rest' eq_refl) as (Hb & Hn & Ho & Hother).
    rewrite Hb. splits; try reflexivity; try assumption.
    intros t' Ht'. destruct (String.eqb t t'); [reflexivity | now apply Hother].
Qed.

Lemma renameColumn_missing table from to s :
  existsb (String.eqb from) (columns_of table s) = false ->
  exists e, renameColumn table from to s = Err e.
Proof.
  induction s as [|[t cols] rest IH]; cbn [renameColumn columns_of]; intros H.
  - eexists. reflexivity.
  - destruct (String.eqb t table).
    + rewrite H. eexists. reflexivity.
    + destruct (IH H) as [e ->]. eexists. reflexivity.
Qed.

Lemma existsb_eqb_In (x : string) (l : list string) :
  existsb (String.eqb x) l = true <-> In x l.
Proof.
  rewrite existsb_exists. split.
  - intros (y & Hy & E). apply String.eqb_eq in E. now subst.
  - intros H. exists x. split; [assumption | apply String.eqb_refl].
Qed.

(** X26. The migration and its reversal are inverse to each other: when
    [up] succeeds, [down] on its result gives back the schema [up]
    started from.  After [up] the table of the profiles has a column
    description and no column bio, the other tables are as they were,
    and [up] cannot be applied a second time. *)
Theorem migration_round_trip s s' :
  up s = Ok s' ->
  down s' = Ok s /\
  In "description"%string (columns_of "Profiles" s') /\
  ~ In "bio"%string (columns_of "Profiles" s') /\
  (forall t, t <> "Profiles"%string -> columns_of t s' = columns_of t s) /\
  exists e, up s' = Err e.
Proof.
  intros H. unfold up, down in *.
  apply renameColumn_Ok in H; [|discriminate].
  destruct H as (Hb & Hn & Ho & Hother). splits; try assumption.
  - now apply existsb_eqb_In.
  - intros Hin. apply existsb_eqb_In in Hin. congruence.
  - now apply renameColumn_missing.
Qed.

(** ** Primary keys *)

Lemma Keys_same_rows w w' :
  posts (db w') = posts (db w) -> postTags (db w') = postTags (db w) ->
  Keys w -> Keys w'.
Proof. intros Hp Hl [Kp Kl]. constructor; now rewrite ?Hp, ?Hl. Qed.

Lemma keeps_keys_ret {A} (a : A) : keeps_keys (ret a).
Proof. intros w w' r H K. run. now inv_pair H. Qed.

Lemma keeps_keys_throw {A} (e : Error) : keeps_keys (@throw A e).
Proof. intros w w' r H K. run. now inv_pair H. Qed.

Lemma keeps_keys_bind {A B} (m : M A) (k : A -> M B) :
  keeps_keys m -> (forall a, keeps_keys (k a)) -> keeps_keys (bind m k).
Proof.
  intros Hm Hk w w' r H K. unfold bind in H.
  destruct (m w) as [w1 [a|e]] eqn:E.
  - eapply Hk; eauto.
  - inv_pair H. eauto.
Qed.

Lemma keeps_keys_read {A} (m : M A) : (forall w, fst (m w) = w) -> keeps_keys m.
Proof. intros Hm w w' r H K. specialize (Hm w). rewrite H in Hm. cbn in Hm. now subst. Qed.

Lemma keeps_keys_User_create now fn ln em :
  keeps_keys (User.create isEmail now fn ln em).
Proof.
  intros w w' r H K. unfold User.create, User.afterCreate in H.
  destruct (User.validate isEmail fn ln em); [|run; now inv_pair H].
  destruct fn; try (run; now inv_pair H).
  destruct ln; try (run; now inv_pair H).
  destruct em as [| |c]; try (run; now inv_pair H).
  run. destruct (existsb _ _); inv_pair H; revert K; now apply Keys_same_rows.
Qed.

Lemma keeps_keys_User_update now fn ln em k :
  keeps_keys (User.update isEmail now fn ln em k).
Proof.
  intros w w' r H K. unfold User.update in H.
  destruct (User.validate_update isEmail fn ln em); [|run; now inv_pair H].
  run.
  match type of H with context [if ?c then _ else _] => destruct c end;
    inv_pair H; revert K; now apply Keys_same_rows.
Qed.

Lemma keeps_keys_User_destroy k : keeps_keys (User.destroy k).
Proof.
  intros w w' r H [Kp Kl]. unfold User.destroy in H. run. inv_pair H.
  constructor; cbn [db posts postTags set_posts set_postTags set_tags set_users set_profiles]; now apply NoDup_map_filter.
Qed.

Lemma keeps_keys_Profile_create now b uid : keeps_keys (Profile.create now b uid).
Proof.
  intros w w' r H K. unfold Profile.create in H. run. inv_pair H.
  revert K. now apply Keys_same_rows.
Qed.

Lemma keeps_keys_Profile_update now b uid : keeps_keys (Profile.update now b uid).
Proof.
  intros w w' r H K. unfold Profile.update in H. run. inv_pair H.
  revert K. now apply Keys_same_rows.
Qed.

Lemma keeps_keys_Profile_destroy uid : keeps_keys (Profile.destroy uid).
Proof.
  intros w w' r H K. unfold Profile.destroy in H. run. inv_pair H.
  revert K. now apply Keys_same_rows.
Qed.

Lemma keeps_keys_Tag_create now n : keeps_keys (Tag.create now n).
Proof.
  intros w w' r H K. unfold Tag.create in H.
  destruct n as [| |s]; try (run; now inv_pair H).
  run. inv_pair H. revert K. now apply Keys_same_rows.
Qed.

Lemma keeps_keys_Tag_update now n k : keeps_keys (Tag.update now n k).
Proof.
  intros w w' r H K. unfold Tag.update in H.
  destruct (not_nulled "Tag.name" n); [|run; now inv_pair H].
  run. inv_pair H. revert K. now apply Keys_same_rows.
Qed.

Lemma keeps_keys_Tag_destroy k : keeps_keys (Tag.destroy k).
Proof.
  intros w w' r H [Kp Kl]. unfold Tag.destroy in H. run. inv_pair H.
  constructor; cbn [db posts postTags set_posts set_postTags set_tags set_users set_profiles]; [assumption | now apply NoDup_map_filter].
Qed.

Lemma keeps_keys_Post_update now ti co st k : keeps_keys (Post.update now ti co st k).
Proof.
  intros w w' r H [Kp Kl]. unfold Post.update in H.
  destruct (not_nulled "Post.title" ti ++ not_nulled "Post.content" co);
    [|run; now inv_pair H].
  run. destruct (Post.patch_status st) as [f|e]; inv_pair H; [|now constructor].
  constructor; cbn [db posts postTags set_posts set_postTags set_tags set_users set_profiles]; [|assumption].
  rewrite map_id_same; [assumption|]. intros p. now destruct (p_id p =? k).
Qed.

Lemma keeps_keys_Post_destroy k : keeps_keys (Post.destroy k).
Proof.
  intros w w' r H [Kp Kl]. unfold Post.destroy in H. run. inv_pair H.
  constructor; cbn [db posts postTags set_posts set_postTags set_tags set_users set_profiles]; now apply NoDup_map_filter.
Qed.

Lemma keeps_keys_Post_removeTag p g : keeps_keys (Post.removeTag p g).
Proof.
  intros w w' r H [Kp Kl]. unfold Post.removeTag in H. run. inv_pair H.
  constructor; cbn [db posts postTags set_posts set_postTags set_tags set_users set_profiles]; [assumption | now apply NoDup_map_filter].
Qed.

Lemma same_pair_false_iff (a b : PostTagRow) :
  same_pair a b = false <-> pair_of a <> pair_of b.
Proof.
  unfold same_pair, pair_of. split.
  - intros H E. injection E as E1 E2. rewrite E1, E2, !Nat.eqb_refl in H. discriminate.
  - intros H. apply andb_false_iff.
    destruct (postId a =? postId b) eqn:E1; [|now left]. right.
    apply Nat.eqb_neq. intros E2. apply Nat.eqb_eq in E1. apply H. congruence.
Qed.

Lemma no_same_pair (r : PostTagRow) (rows : list PostTagRow) :
  existsb (same_pair r) rows = false -> ~ In (pair_of r) (map pair_of rows).
Proof.
  intros H Hin. apply in_map_iff in Hin. destruct Hin as (x & E & Hin).
  assert (T : existsb (same_pair r) rows = true).
  { apply existsb_exists. exists x. split; [assumption|].
    destruct (same_pair r x) eqn:S; [reflexivity|].
    apply same_pair_false_iff in S. congruence. }
  congruence.
Qed.

Lemma has_duplicate_false (rows : list PostTagRow) :
  has_duplicate rows = false -> NoDup (map pair_of rows).
Proof.
  induction rows as [|r rows IH]; cbn [has_duplicate map]; [constructor|].
  intros H. apply orb_false_iff in H. destruct H as [Hr Hrest].
  constructor; [now apply no_same_pair | now apply IH].
Qed.

(** The check of the primary key of the join table lets through only
    rows that keep the pairs distinct. *)
Lemma pk_checked_NoDup (visible bulk : list PostTagRow) :
  NoDup (map pair_of visible) ->
  pk_violation visible bulk = false ->
  NoDup (map pair_of (visible ++ bulk)).
Proof.
  intros Hv H. unfold pk_violation in H. apply orb_false_iff in H.
  destruct H as [Hcross Hdup]. rewrite map_app.
  apply NoDup_app; [assumption | now apply has_duplicate_false |].
  intros a Ha Hb. apply in_map_iff in Hb. destruct Hb as (r & <- & Hr).
  assert (F : existsb (same_pair r) visible = false).
  { destruct (existsb (same_pair r) visible) eqn:E; [|reflexivity].
    assert (T : existsb (fun x => existsb (same_pair x) visible) bulk = true)
      by (apply existsb_exists; eauto).
    congruence. }
  exact (no_same_pair r visible F Ha).
Qed.

Lemma addTagToPost_Keys now pid tid w :
  Keys w -> Keys (fst (addTagToPost now pid tid w)).
Proof.
  intros K. rewrite addTagToPost_spec.
  destruct (find_post pid w) as [p|]; [|exact K].
  destruct (find_tag tid w) as [g|]; [|exact K].
  cbn [fst]. destruct K as [Kp Kl].
  constructor; cbn [db posts postTags set_postTags]; [assumption|].
  destruct (linked (postTags (db w)) (p_id p) (t_id g)) eqn:L.
  - now rewrite app_nil_r.
  - rewrite map_app. cbn [map]. apply NoDup_snoc; [assumption|].
    intros Hin. apply in_map_iff in Hin. destruct Hin as (r & E & Hr).
    unfold pair_of in E. cbn [postId tagId] in E. injection E as E1 E2.
    assert (T : linked (postTags (db w)) (p_id p) (t_id g) = true).
    { unfold linked. apply existsb_exists. exists r. split; [assumption|].
      now rewrite E1, E2, !Nat.eqb_refl. }
    congruence.
Qed.

Lemma createPost_Keys now flt body w :
  Inv w -> Keys w -> Keys (fst (createPost now flt body w)).
Proof.
  intros I K. destruct (createPost now flt body w) as [w' r] eqn:H. cbn [fst].
  apply createPost_outcome in H.
  destruct H as [(_ & _ & (_ & _ & Ko & Kl & _) & _) | H].
  - revert K. now apply Keys_same_rows.
  - destruct H as (uid & u & s & w1 & w2 & instances & H). cbn zeta in H.
    destruct H as (_ & _ & _ & _ & _ & Hd & _ & _ & _ & Hts & Hg & _ & ->).
    destruct Hg as (_ & _ & Go & Gl & _).
    rewrite Hd in Go, Gl. destruct K as [Kp Kl].
    destruct I as [_ _ _ Ip _ _ _].
    constructor; cbn [db posts postTags set_posts set_postTags set_tags set_users set_profiles]; rewrite ?Go, ?Gl.
    + apply NoDup_map_snoc; [assumption|]. cbn [p_id].
      revert Ip. apply Forall_impl. tauto.
    + unfold tag_stage in Hts. destruct (b_tags body) as [[|n rest]|].
      * destruct Hts as [_ ->]. cbn. now rewrite app_nil_r.
      * destruct Hts as (xs & _ & _ & _ & Hpk). rewrite Gl in Hpk.
        now apply pk_checked_NoDup.
      * destruct Hts as [_ ->]. cbn. now rewrite app_nil_r.
Qed.

(** Every controller keeps the primary keys. *)
Lemma handle_Keys now r w :
  Inv w -> Keys w -> Keys (fst (handle isEmail builtin now r w)).
Proof.
  intros I K. destruct (handle isEmail builtin now r w) as [w' resp] eqn:H.
  cbn [fst]. revert H.
  assert (tc : forall (body : M Response) (c : nat),
             keeps_keys body ->
             try_catch body (fun error => respond c (JError error)) w = (w', resp) ->
             Keys w').
  { intros body c Hb. unfold try_catch, respond.
    destruct (body w) as [w1 [x|e]] eqn:E; intros H; inv_pair H; eapply Hb; eauto. }
  destruct r; cbn [handle].
  - apply tc. apply keeps_keys_bind; [apply keeps_keys_User_create|].
    intros; apply keeps_keys_ret.
  - apply tc. apply keeps_keys_bind; [apply keeps_keys_User_update|].
    intros a. destruct (0 <? a); [|apply keeps_keys_ret].
    apply keeps_keys_bind; [now apply keeps_keys_read|]. intros; apply keeps_keys_ret.
  - apply tc. apply keeps_keys_bind; [apply keeps_keys_User_destroy|].
    intros a. destruct (0 <? a); apply keeps_keys_ret.
  - apply tc. apply keeps_keys_bind; [now apply keeps_keys_read|].
    intros [u|]; [|apply keeps_keys_ret]. destruct uid; [|apply keeps_keys_ret].
    apply keeps_keys_bind; [apply keeps_keys_Profile_create|].
    intros; apply keeps_keys_ret.
  - apply tc. apply keeps_keys_bind; [apply keeps_keys_Profile_update|].
    intros a. destruct (0 <? a); [|apply keeps_keys_ret].
    apply keeps_keys_bind; [now apply keeps_keys_read|]. intros; apply keeps_keys_ret.
  - apply tc. apply keeps_keys_bind; [apply keeps_keys_Profile_destroy|].
    intros a. destruct (0 <? a); apply keeps_keys_ret.
  - intros H. pose proof (createPost_Keys now flt body w I K) as X. now rewrite H in X.
  - unfold getAllPosts. apply tc.
    apply keeps_keys_bind; [now apply keeps_keys_read|]. intros sc.
    apply keeps_keys_bind.
    + apply keeps_keys_read. intros v. unfold Post.findAndCountAll, bind, get_db.
      now destruct (_ || _)%bool.
    + intros [c rows]. apply keeps_keys_ret.
  - apply tc. apply keeps_keys_bind; [now apply keeps_keys_read|].
    intros [v|]; apply keeps_keys_ret.
  - apply tc. destruct (title_too_short ti); [apply keeps_keys_throw|].
    apply keeps_keys_bind; [apply keeps_keys_Post_update|].
    intros a. destruct (0 <? a); [|apply keeps_keys_ret].
    apply keeps_keys_bind; [now apply keeps_keys_read|]. intros; apply keeps_keys_ret.
  - apply tc. apply keeps_keys_bind; [apply keeps_keys_Post_destroy|].
    intros a. destruct (0 <? a); apply keeps_keys_ret.
  - apply tc. apply keeps_keys_bind; [apply keeps_keys_Tag_create|].
    intros; apply keeps_keys_ret.
  - apply tc. apply keeps_keys_bind; [apply keeps_keys_Tag_update|].
    intros a. destruct (0 <? a); [|apply keeps_keys_ret].
    apply keeps_keys_bind; [now apply keeps_keys_read|]. intros; apply keeps_keys_ret.
  - apply tc. apply keeps_keys_bind; [apply keeps_keys_Tag_destroy|].
    intros a. destruct (0 <? a); apply keeps_keys_ret.
  - intros H. pose proof (addTagToPost_Keys now pid tid w K) as X. now rewrite H in X.
  - apply tc. apply keeps_keys_bind; [now apply keeps_keys_read|]. intros [p|].
    + apply keeps_keys_bind; [now apply keeps_keys_read|]. intros [g|].
      * apply keeps_keys_bind; [apply keeps_keys_Post_removeTag|].
        intros; apply keeps_keys_ret.
      * apply keeps_keys_ret.
    + apply keeps_keys_bind; [now apply keeps_keys_read|]. intros [g|];
        apply keeps_keys_ret.
Qed.

Lemma Keys_reachable w : reachable isEmail builtin w -> Keys w.
Proof.
  induction 1 as [|w now r Hr IH].
  - constructor; cbn; constructor.
  - apply handle_Keys; [now apply (reachable_Inv isEmail builtin) | assumption].
Qed.

(** X27. Primary keys: in every state the server reaches no two posts
    share an id, and no pair of a post and a tag is linked by more than
    one row of the join table. *)
Theorem reachable_Keys w : reachable isEmail builtin w -> Keys w.
Proof.
  intros Hr. induction Hr as [|w now r Hr IH].
  - constructor; cbn; constructor.
  - apply handle_Keys; [|exact IH].
    exact (reachable_Inv isEmail builtin w Hr).
Qed.

Lemma tags_of_distinct (t : Tables) (p : PostRow) :
  NoDup (map t_id (tags t)) ->
  NoDup (map pair_of (postTags t)) ->
  NoDup (map t_id (tags_of t p)).
Proof.
  intros Ht. unfold tags_of.
  set (f := fun r => if postId r =? p_id p
                     then filter (fun g => t_id g =? tagId r) (tags t) else []).
  assert (named : forall l g, In g (flat_map f l) ->
                              In (p_id p, t_id g) (map pair_of l)).
  { induction l as [|r l IH]; cbn [flat_map map]; intros g Hin; [destruct Hin|].
    apply in_app_or in Hin. destruct Hin as [Hin | Hin]; [left | right; now apply IH].
    unfold f in Hin. destruct (postId r =? p_id p) eqn:E; [|destruct Hin].
    apply filter_In in Hin. destruct Hin as [_ Hg].
    apply Nat.eqb_eq in E, Hg. unfold pair_of. congruence. }
  induction (postTags t) as [|r l IH]; cbn [flat_map map]; intros Hl; [constructor|].
  apply NoDup_cons_iff in Hl. destruct Hl as [Hr Hl]. rewrite map_app.
  apply NoDup_app; [| now apply IH |].
  - unfold f. destruct (postId r =? p_id p); [|constructor].
    now apply NoDup_map_filter.
  - intros k Hk Hk'. apply in_map_iff in Hk, Hk'.
    destruct Hk as (g & <- & Hg). destruct Hk' as (g' & E' & Hg').
    unfold f in Hg. destruct (postId r =? p_id p) eqn:E; [|destruct Hg].
    apply filter_In in Hg. destruct Hg as [_ Hg]. apply Nat.eqb_eq in E, Hg.
    apply Hr. apply named in Hg'. rewrite E' in Hg'. unfold pair_of at 1.
    now rewrite E, <- Hg.
Qed.

(** X28. In every state the server reaches, the tags shown with a post
    are pairwise distinct: [getPostById] lists no tag twice, and neither
    does any row of a page of [getAllPosts]. *)
Theorem served_tags_distinct w :
  reachable isEmail builtin w ->
  (forall id v,
      snd (getPostById id w) = mkResponse 200 (JPostFull v) ->
      NoDup (map t_id (pv_Tags v))) /\
  (forall q rows total current,
      snd (getAllPosts builtin q w) = mkResponse 200 (JPage rows total current) ->
      Forall (fun v => NoDup (map t_id (pv_Tags v))) rows).
Proof.
  intros Hr. pose proof (reachable_Inv isEmail builtin w Hr) as I.
  pose proof (Keys_reachable w Hr) as K.
  destruct I as [_ _ _ _ _ _ It]. destruct K as [_ Kl].
  pose proof (fun p => tags_of_distinct (db w) p It Kl) as D. split.
  - intros id v. unfold getPostById, try_catch, bind, Post.findByPk_include, ret.
    destruct (find _ _) as [p|]; cbn [option_map snd]; [|discriminate].
    intros H. injection H as <-. apply D.
  - intros q rows total current.
    unfold getAllPosts, Post.findAndCountAll, try_catch, bind, lift, get_db, ret,
      throw, respond.
    destruct (Post.scope builtin _) as [sc|e]; [|discriminate].
    destruct (_ || _)%bool; [discriminate|]. cbn [snd].
    intros H. injection H as <- _ _.
    destruct (_ =? 0); [constructor|].
    apply Forall_map. apply Forall_forall. intros p _. apply D.
Qed.

End Further.

(** ** The further properties on sample data *)

Lemma blog_world_reachable : reachable has_at no_builtin blog_world.
Proof. apply serve_reachable, reachable_initial. Qed.

Lemma addTagToPost_links_witness :
  find_post 1 blog_world = Some first_post /\
  find_tag (Some 2) blog_world = Some programming /\
  exists w',
    addTagToPost 6 1 (Some 2) blog_world =
      (w', mkResponse 200 (JMessage "Tag added to post successfully")) /\
    linked (postTags (db w')) 1 2 = true.
Proof.
  assert (H1 : find_post 1 blog_world = Some first_post) by reflexivity.
  assert (H2 : find_tag (Some 2) blog_world = Some programming) by reflexivity.
  split; [exact H1|]. split; [exact H2|].
  destruct (addTagToPost_links 6 1 (Some 2) blog_world first_post programming H1 H2)
    as (w' & E & L & _).
  exists w'. split; assumption.
Defined.

Lemma addTag_then_removeTag_restores_witness :
  linked (postTags (db blog_world)) 1 2 = false /\
  fst (removeTagFromPost 1 (Some 2) (fst (addTagToPost 6 1 (Some 2) blog_world)))
  = blog_world.
Proof.
  split; [reflexivity|].
  apply (addTag_then_removeTag_restores 6 1 (Some 2) blog_world first_post programming);
    reflexivity.
Defined.

Lemma removeTagFromPost_unlinks_one_pair_witness :
  linked (postTags (db blog_world)) 1 1 = true /\
  exists w',
    removeTagFromPost 1 (Some 1) blog_world =
      (w', mkResponse 200 (JMessage "Tag removed from post successfully")) /\
    linked (postTags (db w')) 1 1 = false.
Proof.
  split; [reflexivity|].
  destruct (removeTagFromPost_unlinks_one_pair 1 (Some 1) blog_world first_post technology
              eq_refl eq_refl) as (w' & E & L & _).
  exists w'. split; assumption.
Defined.

Lemma deletePost_removes_witness :
  find_post 1 blog_world = Some first_post /\
  exists w',
    deletePost 1 blog_world = (w', mkResponse 204 JNone) /\
    find_post 1 w' = None /\
    linked (postTags (db w')) 1 1 = false.
Proof.
  split; [reflexivity|].
  destruct (deletePost_removes 1 blog_world first_post eq_refl)
    as (w' & E & Hnone & _ & L & _).
  exists w'. split; [assumption|]. split; [assumption | apply L].
Defined.



Lemma createPost_unknown_user_witness :
  find_user (b_userId stranger_body) blog_world = None /\
  createPost 6 None stranger_body blog_world =
    (blog_world, mkResponse 400 (JError (JsError "User not found"))).
Proof.
  split; [reflexivity|].
  apply (createPost_unknown_user 6 None stranger_body blog_world); reflexivity.
Defined.



Lemma createPost_reuses_tags_witness :
  code (snd (createPost 6 None stored_tags_body blog_world)) = 201 /\
  tags (db (fst (createPost 6 None stored_tags_body blog_world))) = tags (db blog_world).
Proof.
  split; [reflexivity|].
  apply (createPost_reuses_tags 6 None stored_tags_body
           [Some "Technology"; Some "Programming"]%string blog_world).
  - reflexivity.
  - repeat constructor.
    + exists "Technology"%string. split; [reflexivity | left; reflexivity].
    + exists "Programming"%string. split; [reflexivity | right; left; reflexivity].
Defined.

Lemma reachable_Refs_witness :
  reachable has_at no_builtin blog_world /\ Refs blog_world.
Proof.
  pose proof blog_world_reachable as Hr.
  split; [exact Hr|].
  exact (reachable_Refs has_at no_builtin blog_world Hr).
Defined.


Lemma updateUser_email_taken_witness :
  find_user (Some 2) blog_world = Some bob /\
  In alice (users (db blog_world)) /\
  updateUser has_at 6 2 Undefined Undefined (Str "alice@example.com") blog_world =
    (blog_world, mkResponse 500 (JError (UniqueConstraintError "email"))).
Proof.
  assert (Hin : In alice (users (db blog_world))) by (left; reflexivity).
  assert (Hfn : Undefined <> Null) by discriminate.
  assert (Hne : u_id alice <> 2) by discriminate.
  split; [reflexivity|]. split; [exact Hin|].
  exact (updateUser_email_taken has_at 6 2 Undefined Undefined "alice@example.com"
           blog_world bob alice eq_refl Hfn Hfn eq_refl Hin Hne eq_refl).
Defined.

Lemma createProfile_then_getProfile_witness :
  let p := mkProfile 2 (Some "Bob is a software engineer"%string) 2 6 6 in
  exists w',
    createProfile 6 (Str "Bob is a software engineer") (Some 2) blog_world =
      (w', mkResponse 201 (JProfile p)) /\
    getProfile 2 w' = (w', mkReply 200 (DProfile (mkProfileView p (Some bob)))).
Proof.
  intros p.
  destruct (proj2 (createProfile_then_getProfile 6 (Str "Bob is a software engineer")
                     (Some 2) blog_world) bob eq_refl) as (w' & E & _ & G).
  exists w'. split; [exact E|]. apply G. reflexivity.
Defined.

Lemma getPostById_has_author_witness :
  reachable has_at no_builtin blog_world /\
  snd (getPostById 1 blog_world) =
    mkResponse 200 (JPostFull (mkView first_post (Some alice) [technology])) /\
  exists u, Some alice = Some u /\ In u (users (db blog_world)).
Proof.
  pose proof blog_world_reachable as Hr.
  assert (H : snd (getPostById 1 blog_world) =
              mkResponse 200 (JPostFull (mkView first_post (Some alice) [technology])))
    by reflexivity.
  split; [exact Hr|]. split; [exact H|].
  destruct (getPostById_has_author has_at no_builtin 1 blog_world _ Hr H)
    as (u & Hu & _ & Hin & _).
  exists u. split; assumption.
Defined.


Lemma getAllPosts_bad_paging_witness :
  exists e,
    getAllPosts no_builtin (mkQuery (Some 0%Z) (Some 10%Z) (Some "active"%string))
      two_posts_world = (two_posts_world, mkResponse 500 (JError e)).
Proof.
  apply (getAllPosts_bad_paging no_builtin 0%Z 10%Z "active" (Some active) two_posts_world).
  - reflexivity.
  - right. lia.
Defined.


Lemma deleteTag_removes_witness :
  find_tag (Some 1) blog_world = Some technology /\
  exists w',
    deleteTag 1 blog_world = (w', mkResponse 204 JNone) /\
    find_tag (Some 1) w' = None /\
    linked (postTags (db w')) 1 1 = false.
Proof.
  split; [reflexivity|].
  destruct (deleteTag_removes 1 blog_world technology eq_refl)
    as (w' & E & Hnone & _ & L & _).
  exists w'. split; [assumption|]. split; [assumption | apply L].
Defined.



Lemma deleteProfile_then_getProfile_witness :
  find (fun q => pr_userId q =? 1) (profiles (db blog_world)) = Some alice_profile /\
  exists w',
    deleteProfile 1 blog_world = (w', mkResponse 204 JNone) /\
    getProfile 1 w' = (w', mkReply 404 (DMessage "Profile not found")).
Proof.
  split; [reflexivity|].
  destruct (deleteProfile_then_getProfile 1 blog_world alice_profile eq_refl)
    as (w' & E & G & _).
  exists w'. split; assumption.
Defined.

Lemma migration_round_trip_witness :
  exists s',
    up synced_schema = Ok s' /\
    down s' = Ok synced_schema /\
    columns_of "Profiles" s' =
      ["id"; "description"; "userId"; "createdAt"; "updatedAt"]%string.
Proof.
  eexists. split; [vm_compute; reflexivity|].
  split; [|reflexivity].
  apply (migration_round_trip synced_schema). vm_compute. reflexivity.
Defined.

Lemma reachable_Keys_witness :
  reachable has_at no_builtin five_active_world /\ Keys five_active_world.
Proof.
  assert (Hr : reachable has_at no_builtin five_active_world)
    by apply serve_reachable, alice_world_reachable.
  split; [exact Hr|].
  exact (reachable_Keys has_at no_builtin five_active_world Hr).
Defined.

Lemma served_tags_distinct_witness :
  reachable has_at no_builtin five_active_world /\
  exists v,
    snd (getPostById 1 five_active_world) = mkResponse 200 (JPostFull v) /\
    map name (pv_Tags v) = ["Technology"; "Programming"; "Web Development"]%string /\
    NoDup (map t_id (pv_Tags v)).
Proof.
  assert (Hr : reachable has_at no_builtin five_active_world)
    by apply serve_reachable, alice_world_reachable.
  split; [exact Hr|].
  eexists. split; [vm_compute; reflexivity|]. split; [reflexivity|].
  apply (proj1 (served_tags_distinct has_at no_builtin five_active_world Hr) 1).
  vm_compute. reflexivity.
Defined.
